(** * GPS.py of SIM7600G_test: the AT+CGPSINFO parser and the GPS session

    A shallow embedding of [src/GPS.py] and the properties of its
    specification.  Python [bytes] are lists of [Byte.byte], Python [float]s
    are IEEE-754 binary64 values computed with the Standard Library's
    [SpecFloat] (integer arithmetic only), exceptions are values of [exn],
    and the serial port is an abstract device whose state is passed
    explicitly together with the trace of what the program did to it. *)

From Stdlib Require Import ZArith List Bool Lia.
From Stdlib Require Import Strings.Byte Strings.Ascii Strings.String.
From Stdlib Require Import Floats.SpecFloat QArith.
Import ListNotations.

Local Open Scope Z_scope.

(** ** Python [bytes] *)

Module Bytes.

Definition bytes := list byte.

(** A bytes literal, written as a string of one-byte characters. *)
Definition b (s : string) : bytes := list_byte_of_string s.

Definition CR : byte := x0d.
Definition LF : byte := x0a.
Definition CRLF : bytes := [CR; LF].

Definition eqb (x y : bytes) : bool :=
  if list_eq_dec Byte.byte_eq_dec x y then true else false.

(** [s.startswith(p)] *)
Fixpoint startswith (p s : bytes) : bool :=
  match p, s with
  | [], _ => true
  | _ :: _, [] => false
  | x :: p', y :: s' => Byte.eqb x y && startswith p' s'
  end.

(** [needle in hay] *)
Fixpoint contains (needle hay : bytes) : bool :=
  startswith needle hay ||
  match hay with
  | [] => false
  | _ :: hay' => contains needle hay'
  end.

(** [s.split(sep)] for a separator of one byte: never the empty list. *)
Fixpoint split (sep : byte) (s : bytes) : list bytes :=
  match s with
  | [] => [[]]
  | c :: s' =>
      if Byte.eqb c sep then [] :: split sep s'
      else match split sep s' with
           | [] => [[c]]
           | w :: ws => (c :: w) :: ws
           end
  end.

(** [s.splitlines()]: lines end at "\n", "\r" or "\r\n"; the terminators are
    dropped and no empty last line is produced. *)
Fixpoint splitlines (s : bytes) : list bytes :=
  match s with
  | [] => []
  | c :: s' =>
      if Byte.eqb c LF then [] :: splitlines s'
      else if Byte.eqb c CR then
        [] :: match s' with
              | c' :: s'' => if Byte.eqb c' LF then splitlines s'' else splitlines s'
              | [] => splitlines s'
              end
      else match splitlines s' with
           | [] => [[c]]
           | l :: ls => (c :: l) :: ls
           end
  end.

(** [lines[0]] and [lines[-1]] of a list that may be empty. *)
Definition first_line (lines : list bytes) : option bytes := hd_error lines.

Fixpoint last_line (lines : list bytes) : option bytes :=
  match lines with
  | [] => None
  | [l] => Some l
  | _ :: ls => last_line ls
  end.

End Bytes.
Import Bytes.

(** ** Exceptions and results *)

(** The [ValueError]s the parser can raise, by the place that raises them. *)
Inductive value_error : Type :=
| WrongFormat                      (* 'Wrong format, no AT+CGPSINFO or no OK line.' *)
| NoInfoLine                       (* 'No line that starts with "+CGPSINFO: "' *)
| Unpack (expected got : nat)      (* not enough / too many values to unpack *)
| NotAFloat (text : bytes)         (* could not convert string to float *)
| Undecodable (text : bytes)       (* UnicodeDecodeError, a ValueError *)
| TimeDataMismatch (text : string) (* time data does not match format *)
| UnconvertedData (rest : string)  (* unconverted data remains *)
| DayOutOfRange                    (* day is out of range for month *)
| SecondOutOfRange.                (* second must be in 0..59 *)

Inductive exn : Type :=
| ValueError (why : value_error)
| TypeError_unpack_None.           (* cannot unpack non-iterable NoneType object *)

Inductive result (A : Type) : Type :=
| Return (a : A)
| Raise (e : exn).
Arguments Return {A} a.
Arguments Raise {A} e.

Definition rbind {A B} (r : result A) (k : A -> result B) : result B :=
  match r with
  | Return a => k a
  | Raise e => Raise e
  end.

Declare Scope result_scope.
Delimit Scope result_scope with result.
Notation "x <- c ;; k" := (rbind c (fun x => k))
  (at level 61, c at next level, right associativity) : result_scope.

(** ** Python [float]: IEEE-754 binary64 *)

Module Float.

Definition prec : Z := 53.
Definition emax : Z := 1024.

Definition float := spec_float.

Definition add : float -> float -> float := SFadd prec emax.
Definition div : float -> float -> float := SFdiv prec emax.
Definition neg : float -> float := SFopp.

(** An integer as a float, rounded to nearest even. *)
Definition of_Z (n : Z) : float := binary_normalize prec emax n 0 false.

(** The float nearest to [m * 10^e] (ties to even), for [m >= 0]. *)
Definition of_decimal (m : Z) (e : Z) : float :=
  match m with
  | Zpos p =>
      if 0 <=? e then binary_normalize prec emax (m * 10 ^ e) 0 false
      else SFdiv prec emax (S754_finite false p 0)
                           (S754_finite false (Z.to_pos (10 ^ (- e))) 0)
  | _ => S754_zero false
  end.

(** The exact value of a finite float, as a rational. *)
Definition to_Q (x : float) : Q :=
  match x with
  | S754_finite s m e =>
      let n := if s then Zneg m else Zpos m in
      if 0 <=? e then inject_Z (n * 2 ^ e) else Qmake n (Z.to_pos (2 ^ (- e)))
  | _ => 0%Q
  end.

Definition is_finite (x : float) : bool :=
  match x with
  | S754_finite _ _ _ | S754_zero _ => true
  | _ => false
  end.

(** *** [float(text)] for a bytes argument *)

(** Py_ISSPACE *)
Definition is_space (c : byte) : bool :=
  match c with
  | x09 | x0a | x0b | x0c | x0d | x20 => true
  | _ => false
  end.

Definition digit_of (c : byte) : option Z :=
  let n := Z.of_N (Byte.to_N c) in
  if (48 <=? n) && (n <=? 57) then Some (n - 48) else None.

Definition is_digit (c : byte) : bool :=
  match digit_of c with Some _ => true | None => false end.

Definition lower (c : byte) : byte :=
  let n := Byte.to_N c in
  if (65 <=? n)%N && (n <=? 90)%N
  then match Byte.of_N (n + 32) with Some c' => c' | None => c end
  else c.

(** Strip leading blanks; trailing ones too, but never the last byte left. *)
Fixpoint lstrip (s : bytes) : bytes :=
  match s with
  | c :: s' => if is_space c then lstrip s' else s
  | [] => []
  end.

Fixpoint rstrip_keep1 (s : bytes) : bytes :=
  match s with
  | [] => []
  | [c] => [c]
  | c :: s' =>
      match rstrip_keep1 s' with
      | [c'] => if is_space c' then [c] else [c; c']
      | r => c :: r
      end
  end.

(** Underscores are accepted between two digits only, and are dropped
    ([_Py_string_to_number_with_underscores]). *)
Fixpoint drop_underscores (prev : byte) (s : bytes) : option bytes :=
  match s with
  | [] => if Byte.eqb prev "_" then None else Some []
  | c :: s' =>
      if Byte.eqb c "_" then
        if is_digit prev then drop_underscores c s' else None
      else if Byte.eqb prev "_" && negb (is_digit c) then None
      else match drop_underscores c s' with
           | Some r => Some (c :: r)
           | None => None
           end
  end.

(** The longest run of digits at the head: its value, its length, the rest. *)
Fixpoint digits (acc : Z) (n : Z) (s : bytes) : Z * Z * bytes :=
  match s with
  | c :: s' =>
      match digit_of c with
      | Some d => digits (10 * acc + d) (n + 1) s'
      | None => (acc, n, s)
      end
  | [] => (acc, n, s)
  end.

Definition sign_of (s : bytes) : bool * bytes :=
  match s with
  | c :: s' =>
      if Byte.eqb c "-" then (true, s')
      else if Byte.eqb c "+" then (false, s')
      else (false, s)
  | [] => (false, s)
  end.

(** An exponent part; when it is not well formed nothing is consumed. *)
Definition exponent (s : bytes) : Z * bytes :=
  match s with
  | c :: s' =>
      if Byte.eqb (lower c) "e" then
        let '(neg_e, s1) := sign_of s' in
        let '(v, n, s2) := digits 0 0 s1 in
        if n =? 0 then (0, s) else ((if neg_e then - v else v), s2)
      else (0, s)
  | [] => (0, s)
  end.

(** [_Py_dg_strtod]: sign, digits, optional point and digits (one digit at
    least in all), optional exponent.  The value and the unread rest. *)
Definition strtod (s : bytes) : option (float * bytes) :=
  let '(sg, s0) := sign_of s in
  let '(ip, ni, s1) := digits 0 0 s0 in
  let '(m, nf, s2) :=
    match s1 with
    | c :: s1' => if Byte.eqb c "." then digits ip 0 s1' else (ip, 0, s1)
    | [] => (ip, 0, s1)
    end in
  if (ni + nf =? 0) then None
  else
    let '(e, s3) := exponent s2 in
    let v := of_decimal m (e - nf) in
    Some ((if sg then neg v else v), s3).

(** [_Py_parse_inf_or_nan] *)
Definition inf_or_nan (s : bytes) : option (float * bytes) :=
  let '(sg, s0) := sign_of s in
  let low := map lower s0 in
  if startswith (b "inf") low then
    let rest := skipn 3 s0 in
    let rest := if startswith (b "inity") (map lower rest) then skipn 5 rest else rest in
    Some (S754_infinity sg, rest)
  else if startswith (b "nan") low then Some (S754_nan, skipn 3 s0)
  else None.

(** [float(text)] *)
Definition float_of_bytes (text : bytes) : result float :=
  let fail := Raise (ValueError (NotAFloat text)) in
  match drop_underscores x00 text with
  | None => fail
  | Some s =>
      match rstrip_keep1 (lstrip s) with
      | [] => fail
      | s' =>
          match (match strtod s' with Some r => Some r | None => inf_or_nan s' end) with
          | Some (v, []) => Return v
          | _ => fail
          end
      end
  end.

End Float.
Import Float.

(** ** Python [str] and the comparison of a [bytes] with a [str] *)

(** The two kinds of Python object that [parse_gpsinfo_line] compares.
    [==] between objects of different types is [False]. *)
Inductive pyobj : Type :=
| PyBytes (x : bytes)
| PyStr (s : string).

Definition py_eq (x y : pyobj) : bool :=
  match x, y with
  | PyBytes a, PyBytes c => Bytes.eqb a c
  | PyStr s, PyStr t => String.eqb s t
  | _, _ => false
  end.

(** [text.decode()].  The model is exact on ASCII text: CPython raises
    UnicodeDecodeError on ill-formed UTF-8 and decodes the rest to code
    points above 127; here every byte above 127 is answered [Undecodable]. *)
Definition decode (text : bytes) : result string :=
  if forallb (fun c => (Byte.to_N c <? 128)%N) text
  then Return (string_of_list_byte text)
  else Raise (ValueError (Undecodable text)).

(** ** [datetime.strptime(..., '%d%m%y %H%M%S.%f')] and [.timestamp()] *)

Module Datetime.

Record datetime : Type := mkDatetime {
  year : Z; month : Z; day : Z;
  hour : Z; minute : Z; second : Z; microsecond : Z
}.

(** The pattern of [_strptime] for the format, as a backtracking matcher:
    a matcher lists its ways to read a prefix, the preferred one first, so
    the head of the list is the match the regular expression engine finds. *)
Definition matcher (A : Type) := list ascii -> list (A * list ascii).

Definition mret {A} (a : A) : matcher A := fun s => [(a, s)].
Definition mbind {A B} (p : matcher A) (k : A -> matcher B) : matcher B :=
  fun s => flat_map (fun '(a, rest) => k a rest) (p s).
Definition orelse {A} (p q : matcher A) : matcher A := fun s => p s ++ q s.

Declare Scope matcher_scope.
Delimit Scope matcher_scope with matcher.
Notation "x <- p ;; k" := (mbind p (fun x => k))
  (at level 61, p at next level, right associativity) : matcher_scope.
Infix "|||" := orelse (at level 50, left associativity) : matcher_scope.

(** One digit between [lo] and [hi]: the class [[lo-hi]]. *)
Definition dig (lo hi : Z) : matcher Z :=
  fun s =>
    match s with
    | c :: rest =>
        let n := Z.of_N (N_of_ascii c) - 48 in
        if (lo <=? n) && (n <=? hi) then [(n, rest)] else []
    | [] => []
    end.

Definition lit (c : ascii) : matcher unit :=
  fun s =>
    match s with
    | c' :: rest => if Ascii.eqb c c' then [(tt, rest)] else []
    | [] => []
    end.

(** [\s] on ASCII text. *)
Definition is_blank (c : ascii) : bool :=
  let n := N_of_ascii c in
  (((9 <=? n) && (n <=? 13)) || ((28 <=? n) && (n <=? 32)))%N.

(** [\s+], greedy. *)
Fixpoint blanks1 (s : list ascii) : list (unit * list ascii) :=
  match s with
  | c :: rest => if is_blank c then blanks1 rest ++ [(tt, rest)] else []
  | [] => []
  end.

Local Open Scope matcher_scope.

(** Two digits [[a-b][c-d]] read as one number. *)
Definition dig2 (a b' c d : Z) : matcher Z :=
  x <- dig a b' ;; y <- dig c d ;; mret (10 * x + y).

Definition re_d : matcher Z :=   (* 3[0-1]|[1-2]\d|0[1-9]|[1-9]| [1-9] *)
  dig2 3 3 0 1 ||| dig2 1 2 0 9 ||| dig2 0 0 1 9 ||| dig 1 9
  ||| (_ <- lit " " ;; dig 1 9).
Definition re_m : matcher Z :=   (* 1[0-2]|0[1-9]|[1-9] *)
  dig2 1 1 0 2 ||| dig2 0 0 1 9 ||| dig 1 9.
Definition re_y : matcher Z :=   (* \d\d *)
  dig2 0 9 0 9.
Definition re_H : matcher Z :=   (* 2[0-3]|[0-1]\d|\d *)
  dig2 2 2 0 3 ||| dig2 0 1 0 9 ||| dig 0 9.
Definition re_M : matcher Z :=   (* [0-5]\d|\d *)
  dig2 0 5 0 9 ||| dig 0 9.
Definition re_S : matcher Z :=   (* 6[0-1]|[0-5]\d|\d *)
  dig2 6 6 0 1 ||| dig2 0 5 0 9 ||| dig 0 9.

(** [[0-9]{1,6}], greedy; the digits read are padded with zeros on the
    right to six, so the value is a number of microseconds. *)
Fixpoint re_f_upto (n : nat) (acc : Z) (scale : Z) : matcher Z :=
  match n with
  | O => fun _ => []
  | S n' =>
      d <- dig 0 9 ;;
      (re_f_upto n' (10 * acc + d) (scale / 10)
       ||| mret ((10 * acc + d) * (scale / 10)))
  end.
Definition re_f : matcher Z := re_f_upto 6 0 1000000.

Definition pattern : matcher datetime :=
  d <- re_d ;; m <- re_m ;; y <- re_y ;;
  _ <- blanks1 ;;
  hh <- re_H ;; mm <- re_M ;; ss <- re_S ;;
  _ <- lit "." ;;
  us <- re_f ;;
  mret (mkDatetime (if y <=? 68 then y + 2000 else y + 1900) m d hh mm ss us).

Local Close Scope matcher_scope.

Definition is_leap (y : Z) : bool :=
  (y mod 4 =? 0) && (negb (y mod 100 =? 0) || (y mod 400 =? 0)).

Definition days_in_month (y m : Z) : Z :=
  match m with
  | 2 => if is_leap y then 29 else 28
  | 4 | 6 | 9 | 11 => 30
  | _ => 31
  end.

Definition days_before_year (y : Z) : Z :=
  let y1 := y - 1 in y1 * 365 + y1 / 4 - y1 / 100 + y1 / 400.

Definition days_before_month (y m : Z) : Z :=
  fold_right Z.add 0 (map (days_in_month y) (map Z.of_nat (seq 1 (Z.to_nat (m - 1))))).

(** The proleptic Gregorian ordinal of a date; 1 is 0001-01-01. *)
Definition ymd2ord (y m d : Z) : Z :=
  days_before_year y + days_before_month y m + d.

(** [datetime.strptime(text, '%d%m%y %H%M%S.%f')] *)
Definition strptime (text : string) : result datetime :=
  match pattern (list_ascii_of_string text) with
  | [] => Raise (ValueError (TimeDataMismatch text))
  | (t, rest) :: _ =>
      match rest with
      | _ :: _ => Raise (ValueError (UnconvertedData (string_of_list_ascii rest)))
      | [] =>
          if day t >? days_in_month (year t) (month t)
          then Raise (ValueError DayOutOfRange)
          else if second t >? 59 then Raise (ValueError SecondOutOfRange)
          else Return t
      end
  end.

(** Seconds from 1970-01-01T00:00:00 to the wall-clock reading [t], both
    read in one and the same zone. *)
Definition wall_seconds (t : datetime) : Z :=
  (ymd2ord (year t) (month t) (day t) - 719163) * 86400
  + hour t * 3600 + minute t * 60 + second t.

(** [t.timestamp()] of a naive datetime: the reading is taken as local
    time.  The host's zone is [utcoffset] seconds east of UTC (a zone of
    fixed offset); the result is the float sum of the whole seconds and of
    [microsecond / 1e6]. *)
Definition timestamp (utcoffset : Z) (t : datetime) : float :=
  Float.add (Float.of_Z (wall_seconds t - utcoffset))
            (Float.div (Float.of_Z (microsecond t)) (Float.of_Z 1000000)).

(** The instant that the reading [t] names when it is read in UTC. *)
Definition utc_instant (t : datetime) : float := timestamp 0 t.

End Datetime.
Import Datetime.

(** ** The parser *)

Record GPSInfo : Type := mkGPSInfo {
  lat : float;
  lng : float;
  gps_timestamp : float;
  alt : float;
  speed : float
}.

Definition GPS_STANDALONE : bytes := b "AT+CGPS=1,1".
Definition GPS_STOP : bytes := b "AT+CGPS=0".
Definition GPS_INFO : bytes := b "AT+CGPSINFO".
Definition INFO_PREFIX : bytes := b "+CGPSINFO: ".
Definition OK : bytes := b "OK".

Local Open Scope result_scope.

(** Lines 51-52: the date and time fields to a POSIX timestamp. *)
Definition decode_timestamp (utcoffset : Z) (date utctime : bytes) : result float :=
  d <- decode date ;;
  u <- decode utctime ;;
  let datestring := (d ++ " " ++ u)%string in
  t <- strptime datestring ;;
  Return (timestamp utcoffset t).

(** The body of [parse_gpsinfo_line] once the line is unpacked. *)
Definition parse_fields (utcoffset : Z)
    (lat_ ns lng_ ew date utctime alt_ speed_ course : bytes) : result GPSInfo :=
  lat_deg <- float_of_bytes (firstn 2 lat_) ;;
  lat_min <- float_of_bytes (skipn 2 lat_) ;;
  let latfloat := Float.add lat_deg (Float.div lat_min (Float.of_Z 60)) in
  lng_deg <- float_of_bytes (firstn 3 lng_) ;;
  lng_min <- float_of_bytes (skipn 3 lng_) ;;
  let lngfloat := Float.add lng_deg (Float.div lng_min (Float.of_Z 60)) in
  let latfloat :=
    if py_eq (PyBytes ns) (PyStr "S") then Float.neg latfloat else latfloat in
  let lngfloat :=
    if py_eq (PyBytes ew) (PyStr "W") then Float.neg lngfloat else lngfloat in
  ts <- decode_timestamp utcoffset date utctime ;;
  a <- float_of_bytes alt_ ;;
  s <- float_of_bytes speed_ ;;
  Return (mkGPSInfo latfloat lngfloat ts a s).

Definition parse_gpsinfo_line (utcoffset : Z) (line : bytes) : result GPSInfo :=
  match split "," line with
  | [lat_; ns; lng_; ew; date; utctime; alt_; speed_; course] =>
      parse_fields utcoffset lat_ ns lng_ ew date utctime alt_ speed_ course
  | fields => Raise (ValueError (Unpack 9 (List.length fields)))
  end.

(** The [for] loop of [parse_gpsinfo]: the first line with the prefix. *)
Fixpoint first_info_line (utcoffset : Z) (lines : list bytes) : result GPSInfo :=
  match lines with
  | [] => Raise (ValueError NoInfoLine)
  | line :: rest =>
      if startswith INFO_PREFIX line
      then parse_gpsinfo_line utcoffset (skipn (List.length INFO_PREFIX) line)
      else first_info_line utcoffset rest
  end.

Definition well_framed (lines : list bytes) : bool :=
  match first_line lines, last_line lines with
  | Some f, Some l => Bytes.eqb f GPS_INFO && Bytes.eqb l OK
  | _, _ => false
  end.

Definition parse_lines (utcoffset : Z) (lines : list bytes) : result GPSInfo :=
  if negb (well_framed lines) then Raise (ValueError WrongFormat)
  else first_info_line utcoffset lines.

Definition parse_gpsinfo (utcoffset : Z) (gpsinfo : bytes) : result GPSInfo :=
  parse_lines utcoffset (splitlines gpsinfo).

Local Close Scope result_scope.

(** ** The serial port *)

(** What the program prints, by the place that prints it. *)
Inductive message : Type :=
| MsgStartSession                        (* 'Start GPS session...' *)
| MsgCommandError (command : bytes)      (* command, ' ERROR' *)
| MsgCommandBack (command answer : bytes)(* command, ' back:', answer *)
| MsgAnswer (answer : bytes)             (* the answer *)
| MsgNotReadyTty                         (* 'GPS is not ready, maybe wrong tty' *)
| MsgNotReadyMode                        (* 'GPS is not ready, maybe wrong mode ...' *)
| MsgError (answer : bytes).             (* 'error', answer *)

(** What the program does to the outside, in the order it does it.
    Durations are in milliseconds. *)
Inductive event : Type :=
| Write (data : bytes)
| Sleep (ms : Z)
| Read (size : Z) (data : bytes)
| Print (m : message).

(** A serial device: the part of [serial.Serial] that the program uses.
    Its operations are total (no I/O exception is modelled) and it sees the
    time that the program lets pass. *)
Record Serial : Type := mkSerial {
  port : Type;
  dev_write : bytes -> port -> port;
  dev_inWaiting : port -> Z;
  dev_read : Z -> port -> bytes * port;
  dev_sleep : Z -> port -> port
}.

Definition writes_of (tr : list event) : list bytes :=
  flat_map (fun e => match e with Write d => [d] | _ => [] end) tr.

Section Session.

Variable comm : Serial.

(** The host's local zone, in seconds east of UTC. *)
Variable utcoffset : Z.

(** The state of the port and the trace so far. *)
Definition world : Type := port comm * list event.

Definition M (A : Type) : Type := world -> A * world.

Definition ret {A} (a : A) : M A := fun w => (a, w).
Definition bind {A B} (c : M A) (k : A -> M B) : M B :=
  fun w => let (a, w') := c w in k a w'.

Notation "x <- c ;; k" := (bind c (fun x => k))
  (at level 61, c at next level, right associativity).
Notation "c ;; k" := (bind c (fun _ => k))
  (at level 61, right associativity).

Definition write (data : bytes) : M unit :=
  fun w => (tt, (dev_write comm data (fst w), snd w ++ [Write data])).

Definition sleep (ms : Z) : M unit :=
  fun w => (tt, (dev_sleep comm ms (fst w), snd w ++ [Sleep ms])).

Definition inWaiting : M Z :=
  fun w => (dev_inWaiting comm (fst w), w).

Definition read (size : Z) : M bytes :=
  fun w => let (data, p) := dev_read comm size (fst w) in
           (data, (p, snd w ++ [Read size data])).

Definition print (m : message) : M unit :=
  fun w => (tt, (fst w, snd w ++ [Print m])).

(** [send_at_complex]: [None] is Python's [None], returned when the
    function ends without a [return]; [Some (status, serial_answer)] is the
    pair it returns otherwise. *)
Definition send_at_complex (command back : bytes) (timeout : Z)
  : M (option (Z * bytes)) :=
  write (command ++ CRLF) ;;
  sleep timeout ;;
  waiting <- inWaiting ;;
  if negb (waiting =? 0) then
    sleep 10 ;;
    size <- inWaiting ;;
    serial_answer <- read size ;;
    match serial_answer with
    | _ :: _ =>
        if negb (contains back serial_answer) then
          print (MsgCommandError command) ;;
          print (MsgCommandBack command serial_answer) ;;
          ret (Some (0, serial_answer))
        else
          print (MsgAnswer serial_answer) ;;
          ret (Some (1, serial_answer))
    | [] => ret None
    end
  else
    print MsgNotReadyTty ;;
    ret (Some (0, [])).

(** What the port gives to [send_at_complex]: [None] when no byte waits
    after the settle time, else the bytes that [read] returns after the
    grace time. *)
Definition answer_of (command : bytes) (timeout : Z) (p : port comm) : option bytes :=
  let p1 := dev_sleep comm timeout (dev_write comm (command ++ CRLF) p) in
  if dev_inWaiting comm p1 =? 0 then None
  else
    let p2 := dev_sleep comm 10 p1 in
    Some (fst (dev_read comm (dev_inWaiting comm p2) p2)).

(** What [get_gps_position] hands to its caller: a fix, [None], or an
    exception. *)
Definition lift_fix (r : result GPSInfo) : result (option GPSInfo) :=
  match r with
  | Return info => Return (Some info)
  | Raise e => Raise e
  end.

(** The [while rec_null] loop.  [fuel] bounds the number of tests of the
    loop condition; [None] is the answer of a run that needs more. *)
Fixpoint poll (fuel : nat) (rec_null : bool) : M (option (result (option GPSInfo))) :=
  match fuel with
  | O => ret None
  | S fuel' =>
      if rec_null then
        reply <- send_at_complex GPS_INFO INFO_PREFIX 1000 ;;
        match reply with
        | None => ret (Some (Raise TypeError_unpack_None))
        | Some (status, serial_answer) =>
            if negb (status =? 0) then
              if contains (b ",,,,,,") serial_answer then
                print MsgNotReadyMode ;;
                sleep 1000 ;;
                sleep 1500 ;;
                poll fuel' false
              else
                ret (Some (lift_fix (parse_gpsinfo utcoffset serial_answer)))
            else
              print (MsgError serial_answer) ;;
              send_at_complex GPS_STOP OK 1000 ;;
              ret (Some (Return None))
        end
      else ret (Some (Return None))
  end.

(** What the session returns, from what its one query returned. *)
Definition session_result (reply : option (Z * bytes)) : result (option GPSInfo) :=
  match reply with
  | None => Raise TypeError_unpack_None
  | Some (status, answer) =>
      if status =? 0 then Return None
      else if contains (b ",,,,,,") answer then Return None
      else lift_fix (parse_gpsinfo utcoffset answer)
  end.

(** The session up to the first test of the loop condition. *)
Definition start_session : M (option (Z * bytes)) :=
  print MsgStartSession ;;
  started <- send_at_complex GPS_STANDALONE OK 1000 ;;
  sleep 2000 ;;
  ret started.

Definition get_gps_position (fuel : nat) : M (option (result (option GPSInfo))) :=
  start_session ;;
  poll fuel true.

End Session.

Arguments ret {comm A} a.
Arguments bind {comm A B} c k.

(** ** Devices for concrete runs *)

(** A modem that answers each command written to it with the next reply of
    its script; the replies wait in the input buffer until they are read. *)
Definition scripted : Serial :=
  {| port := bytes * list bytes;
     dev_write := fun _ p =>
       match snd p with
       | r :: rs => (fst p ++ r, rs)
       | [] => p
       end;
     dev_inWaiting := fun p => Z.of_nat (List.length (fst p));
     dev_read := fun size p =>
       (firstn (Z.to_nat size) (fst p), (skipn (Z.to_nat size) (fst p), snd p));
     dev_sleep := fun _ p => p |}.

(** A port that reports the bytes of its buffer as waiting but whose reads
    come back empty. *)
Definition stalled : Serial :=
  {| port := bytes;
     dev_write := fun data p => p ++ data;
     dev_inWaiting := fun p => Z.of_nat (List.length p);
     dev_read := fun _ p => ([], p);
     dev_sleep := fun _ p => p |}.

(** The reply of a modem that has no fix yet, its data line, and the reply
    to a command that the modem accepts. *)
Definition empty_reply : bytes :=
  GPS_INFO ++ CRLF ++ b "+CGPSINFO: ,,,,,,,," ++ CRLF ++ OK ++ CRLF.

Definition empty_line : bytes := INFO_PREFIX ++ b ",,,,,,,,".

Definition ok_reply : bytes := CRLF ++ OK ++ CRLF.

(** A modem that never answers, one that acknowledges the start and then
    has no fix (and would say so again), and their sessions. *)
Definition silent_port : world scripted := (([], []), []).

Definition not_ready_port : world scripted :=
  (([], [ok_reply; empty_reply; empty_reply; empty_reply]), []).

Definition query (w : world scripted) : option (Z * bytes) :=
  fst (send_at_complex scripted GPS_INFO INFO_PREFIX 1000 (snd (start_session scripted w))).

(** ** The data of the examples *)

(** The fix of the example: 31 deg 10.123456 min, 121 deg 30.654321 min,
    1 January 2024, 23:59:59.5. *)
Definition example_lat : float :=
  Float.add (Float.of_Z 31) (Float.div (Float.of_decimal 10123456 (-6)) (Float.of_Z 60)).
Definition example_lng : float :=
  Float.add (Float.of_Z 121) (Float.div (Float.of_decimal 30654321 (-6)) (Float.of_Z 60)).
Definition example_time : datetime := mkDatetime 2024 1 1 23 59 59 500000.

Definition fix_lines : list bytes :=
  [ GPS_INFO;
    b "+CGPSINFO: 3110.123456,N,12130.654321,E,010124,235959.500000,12.3,0.5,0";
    OK ].

Definition fix_reply : bytes :=
  GPS_INFO ++ CRLF
  ++ b "+CGPSINFO: 3110.123456,N,12130.654321,E,010124,235959.500000,12.3,0.5,0"
  ++ CRLF ++ OK ++ CRLF.

Definition south_west_line : bytes :=
  b "3110.123456,S,12130.654321,W,010124,235959.500000,12.3,0.5,0".

(** A transcript with the echo and the data line but no closing OK. *)
Definition reply_without_ok : bytes :=
  GPS_INFO ++ CRLF
  ++ b "+CGPSINFO: 3110.123456,N,12130.654321,E,010124,235959.500000,12.3,0.5,0"
  ++ CRLF.

(** Which exceptions the parser raises, and where. *)
Definition field_error (e : exn) : Prop :=
  match e with
  | ValueError (NotAFloat _) | ValueError (Undecodable _)
  | ValueError (TimeDataMismatch _) | ValueError (UnconvertedData _)
  | ValueError DayOutOfRange | ValueError SecondOutOfRange => True
  | _ => False
  end.

(** ** Time spent and reads made, from a trace *)

Definition slept (tr : list event) : Z :=
  fold_right (fun e acc => match e with Sleep ms => ms + acc | _ => acc end) 0 tr.

Definition reads_of (tr : list event) : list bytes :=
  flat_map (fun e => match e with Read _ d => [d] | _ => [] end) tr.

(** ** Device discovery *)

Definition DEFAULT_TTY_GPS : string := "/dev/ttyUSB2".
Definition GPS_STATUS : bytes := b "AT+CGPS?".

(** [send_cmd] *)
Definition send_cmd (comm : Serial) (command : bytes) (timeout : Z) : M comm bytes :=
  bind (write comm (command ++ CRLF)) (fun _ =>
  bind (sleep comm timeout) (fun _ =>
  bind (inWaiting comm) (fun size =>
  read comm size))).

(** The host of the program: the serial devices that it can name.
    [host_open] is [serial.Serial(tty, ...)], [None] when it raises;
    [host_close] is the end of the [with] block; [host_comports] lists the
    [device] of each port of [serial.tools.list_ports.comports()]. *)
Record Host : Type := mkHost {
  host_comm : Serial;
  hstate : Type;
  host_open : string -> hstate -> option (port host_comm * hstate);
  host_close : string -> port host_comm -> hstate -> hstate;
  host_flushInput : port host_comm -> port host_comm;
  host_comports : hstate -> list string
}.

(** What discovery does to the outside: the line it prints before a probe,
    and then either the failure to open the port or what was done to the
    port between its opening (and the flush of its input) and its closing. *)
Inductive probe_event : Type :=
| Trying (tty : string)
| OpenFailed (tty : string)
| Probed (tty : string) (tr : list event).

Definition tried (evs : list probe_event) : list string :=
  flat_map (fun e => match e with Trying t => [t] | _ => [] end) evs.

(** [bool(response) and response.splitlines()[-1] == b'OK'];
    [None] is the IndexError of [[-1]] on an empty list. *)
Definition last_is_ok (response : bytes) : option bool :=
  match response with
  | [] => Some false
  | _ :: _ =>
      match last_line (splitlines response) with
      | None => None
      | Some l => Some (Bytes.eqb l OK)
      end
  end.

(** [if default] and [port.device != default], for a default that is a
    [str] or [None]. *)
Definition truthy (default : option string) : bool :=
  match default with
  | Some s => negb (String.eqb s "")
  | None => false
  end.

Definition differs (device : string) (default : option string) : bool :=
  match default with
  | Some s => negb (String.eqb device s)
  | None => true
  end.

Section Discovery.

Variable host : Host.

Definition hworld : Type := hstate host * list probe_event.

(** [is_tty_gps]; [None] is an IndexError that leaves the function. *)
Definition is_tty_gps (tty : string) (w : hworld) : option bool * hworld :=
  let evs := snd w ++ [Trying tty] in
  match host_open host tty (fst w) with
  | None => (Some false, (fst w, evs ++ [OpenFailed tty]))
  | Some (p, h) =>
      let '(response, (p', tr)) :=
        send_cmd (host_comm host) GPS_STATUS 10 (host_flushInput host p, []) in
      (last_is_ok response, (host_close host tty p' h, evs ++ [Probed tty tr]))
  end.

(** The [for] loop of [find_tty_gps] over the reversed list of ports. *)
Fixpoint scan_ports (default : option string) (devices : list string) (w : hworld)
  : option (option string) * hworld :=
  match devices with
  | [] => (Some None, w)
  | device :: rest =>
      if differs device default then
        match is_tty_gps device w with
        | (Some true, w') => (Some (Some device), w')
        | (Some false, w') => scan_ports default rest w'
        | (None, w') => (None, w')
        end
      else scan_ports default rest w
  end.

(** [find_tty_gps]: [Some (Some tty)] is the device returned, [Some None]
    is the [None] returned, [None] is an IndexError. *)
Definition find_tty_gps (default : option string) (w : hworld)
  : option (option string) * hworld :=
  let scan w1 := scan_ports default (rev (host_comports host (fst w1))) w1 in
  match default with
  | Some s =>
      if truthy default then
        match is_tty_gps s w with
        | (Some true, w') => (Some (Some s), w')
        | (Some false, w') => scan w'
        | (None, w') => (None, w')
        end
      else scan w
  | None => scan w
  end.

(** The ports that [find_tty_gps] gets from [comports()] when it asks. *)
Definition ports_seen (default : option string) (w : hworld) : list string :=
  match default with
  | Some s =>
      if truthy default then host_comports host (fst (snd (is_tty_gps s w)))
      else host_comports host (fst w)
  | None => host_comports host (fst w)
  end.

(** The devices to probe, in the order of the code: the default when it is
    a non-empty name, then the ports from the last to the first, the
    default left out. *)
Definition candidates (default : option string) (ports : list string) : list string :=
  (match default with
   | Some s => if truthy default then [s] else []
   | None => []
   end) ++ filter (fun device => differs device default) (rev ports).

End Discovery.

(** A host with three ports: ttyUSB0 cannot be opened, the modem's AT port
    is ttyUSB1 and answers, ttyUSB2 opens and stays silent. *)
Definition status_reply : bytes :=
  GPS_STATUS ++ CRLF ++ b "+CGPS: 0,1" ++ CRLF ++ CRLF ++ OK ++ CRLF.

Definition three_ports : Host :=
  {| host_comm := scripted;
     hstate := unit;
     host_open := fun tty h =>
       if String.eqb tty "/dev/ttyUSB1" then Some (([], [status_reply]), h)
       else if String.eqb tty "/dev/ttyUSB2" then Some (([], []), h)
       else None;
     host_close := fun _ _ h => h;
     host_flushInput := fun p => ([], snd p);
     host_comports := fun _ => ["/dev/ttyUSB0"; "/dev/ttyUSB1"; "/dev/ttyUSB2"]%string |}.

(** Transcripts for the examples of the parser. *)
Definition reply_without_data : bytes := GPS_INFO ++ CRLF ++ OK ++ CRLF.

Definition reply_with_two_data_lines : bytes :=
  GPS_INFO ++ [CR] ++ CRLF
  ++ b "+CGPSINFO: 3110.123456,N,12130.654321,E,010124,235959.500000,12.3,0.5,0"
  ++ CRLF
  ++ b "+CGPSINFO: garbage" ++ CRLF ++ CRLF ++ OK ++ CRLF.

(** Whether the query came back with status 0. *)
Definition query_failed (reply : option (Z * bytes)) : bool :=
  match reply with
  | Some (status, _) => status =? 0
  | None => false
  end.

(** Every value that a matcher reads satisfies [P]. *)
Definition yields {A} (m : matcher A) (P : A -> Prop) : Prop :=
  forall s a r, In (a, r) (m s) -> P a.

(** The calendar fields that [datetime] accepts, for the years of [%y]. *)
Definition valid_datetime (t : datetime) : Prop :=
  1969 <= year t <= 2068
  /\ 1 <= month t <= 12
  /\ 1 <= day t <= days_in_month (year t) (month t)
  /\ 0 <= hour t <= 23
  /\ 0 <= minute t <= 59
  /\ 0 <= second t <= 59
  /\ 0 <= microsecond t <= 999999.

(** * Properties *)

Ltac by_computation := vm_compute; reflexivity.

(** ** Bytes *)

Lemma bytes_eqb_eq (x y : bytes) : Bytes.eqb x y = true <-> x = y.
Proof.
  unfold Bytes.eqb. destruct (list_eq_dec Byte.byte_eq_dec x y); split;
    intros; congruence.
Qed.

Lemma byte_eqb_eq (x y : byte) : Byte.eqb x y = true <-> x = y.
Proof.
  split; intros H.
  - apply Byte.byte_dec_bl. exact H.
  - apply Byte.byte_dec_lb. exact H.
Qed.

Lemma startswith_app (p s : bytes) : startswith p (p ++ s) = true.
Proof.
  induction p as [|x p IH]; simpl; [reflexivity|].
  rewrite IH, andb_true_r. apply byte_eqb_eq. reflexivity.
Qed.

Lemma startswith_prefix (p s : bytes) :
  startswith p s = true -> exists r, s = p ++ r.
Proof.
  revert s. induction p as [|x p IH]; intros s H.
  - exists s. reflexivity.
  - destruct s as [|y s]; simpl in H; [discriminate|].
    apply andb_true_iff in H. destruct H as [Hxy Hp].
    apply byte_eqb_eq in Hxy. subst y.
    destruct (IH s Hp) as [r ->]. exists r. reflexivity.
Qed.

Lemma startswith_app_r (p s t : bytes) :
  startswith p s = true -> startswith p (s ++ t) = true.
Proof.
  intros H. destruct (startswith_prefix p s H) as [r ->].
  rewrite <- app_assoc. apply startswith_app.
Qed.

Lemma contains_app_l (n a h : bytes) :
  contains n h = true -> contains n (a ++ h) = true.
Proof.
  intros H. induction a as [|x a IH]; simpl; [exact H|].
  rewrite IH. apply orb_true_r.
Qed.

Lemma contains_app_r (n h c : bytes) :
  contains n h = true -> contains n (h ++ c) = true.
Proof.
  induction h as [|x h IH]; intros H.
  - simpl in H. rewrite orb_false_r in H.
    destruct n; [|discriminate]. destruct c; reflexivity.
  - cbn [contains] in H. apply orb_true_iff in H.
    change ((x :: h) ++ c) with (x :: (h ++ c)). cbn [contains].
    apply orb_true_iff. destruct H as [H|H].
    + left. apply (startswith_app_r n (x :: h) c H).
    + right. apply IH, H.
Qed.

(** A line of [splitlines] is a piece of the text. *)
Lemma splitlines_head_prefix (s l : bytes) (ls : list bytes) :
  splitlines s = l :: ls -> exists c, s = l ++ c.
Proof.
  revert l ls. induction s as [|x s IH]; intros l ls H; [discriminate|].
  cbn [splitlines] in H.
  destruct (Byte.eqb x LF); [injection H as <- _; eexists; reflexivity|].
  destruct (Byte.eqb x CR); [injection H as <- _; eexists; reflexivity|].
  destruct (splitlines s) as [|l0 ls0] eqn:E.
  - injection H as <- _. exists s. reflexivity.
  - injection H as <- _. destruct (IH l0 ls0 eq_refl) as [c ->].
    exists c. reflexivity.
Qed.

Lemma splitlines_nil (s : bytes) : splitlines s = [] -> s = [].
Proof.
  destruct s as [|x s]; [reflexivity|]. cbn [splitlines].
  destruct (Byte.eqb x LF); [discriminate|].
  destruct (Byte.eqb x CR); [discriminate|].
  destruct (splitlines s); discriminate.
Qed.

Lemma splitlines_line_substring_len (n : nat) :
  forall (s l : bytes), (List.length s <= n)%nat ->
  In l (splitlines s) -> exists a c, s = a ++ l ++ c.
Proof.
  induction n as [|n IH]; intros s l Hn Hin.
  - destruct s; [destruct Hin | simpl in Hn; lia].
  - destruct s as [|x s]; [destruct Hin|].
    simpl in Hn. apply le_S_n in Hn.
    cbn [splitlines] in Hin.
    destruct (Byte.eqb x LF).
    { destruct Hin as [<-|Hin].
      - exists [], (x :: s). reflexivity.
      - destruct (IH s l Hn Hin) as (a & c & ->).
        exists (x :: a), c. reflexivity. }
    destruct (Byte.eqb x CR).
    { destruct Hin as [<-|Hin].
      - exists [], (x :: s). reflexivity.
      - destruct s as [|y s'].
        + destruct Hin.
        + destruct (Byte.eqb y LF).
          * assert (Hn' : (List.length s' <= n)%nat) by (simpl in Hn; lia).
            destruct (IH s' l Hn' Hin) as (a & c & ->).
            exists (x :: y :: a), c. reflexivity.
          * destruct (IH (y :: s') l Hn Hin) as (a & c & E).
            exists (x :: a), c. rewrite E. reflexivity. }
    destruct (splitlines s) as [|l0 ls0] eqn:E.
    + destruct Hin as [<-|[]]. exists [], s. reflexivity.
    + destruct Hin as [<-|Hin].
      * destruct (splitlines_head_prefix s l0 ls0 E) as [c ->].
        exists [], c. reflexivity.
      * assert (Hin' : In l (splitlines s)) by (rewrite E; right; exact Hin).
        destruct (IH s l Hn Hin') as (a & c & ->).
        exists (x :: a), c. reflexivity.
Qed.

Lemma splitlines_line_substring (s l : bytes) :
  In l (splitlines s) -> exists a c, s = a ++ l ++ c.
Proof. apply (splitlines_line_substring_len (List.length s)). apply le_n. Qed.

Lemma contains_line (n s l : bytes) :
  In l (splitlines s) -> contains n l = true -> contains n s = true.
Proof.
  intros Hin Hc. destruct (splitlines_line_substring s l Hin) as (a & c & ->).
  apply contains_app_l, contains_app_r, Hc.
Qed.

(** ** The framing test (claim C8) *)

Lemma well_framed_iff (lines : list bytes) :
  well_framed lines = true <->
  first_line lines = Some GPS_INFO /\ last_line lines = Some OK.
Proof.
  unfold well_framed.
  destruct (first_line lines) as [f|], (last_line lines) as [l|];
    try (split; [discriminate | intros [? ?]; discriminate]).
  rewrite andb_true_iff, !bytes_eqb_eq.
  split; intros [? ?]; split; congruence.
Qed.

Lemma rbind_Raise {A B} (r : result A) (k : A -> result B) (e : exn) :
  rbind r k = Raise e ->
  r = Raise e \/ exists a, r = Return a /\ k a = Raise e.
Proof.
  destruct r as [a|e']; cbn [rbind]; intros H.
  - right. exists a. split; [reflexivity | exact H].
  - left. injection H as ->. reflexivity.
Qed.

Lemma float_of_bytes_Raise (text : bytes) (e : exn) :
  float_of_bytes text = Raise e -> e = ValueError (NotAFloat text).
Proof.
  unfold float_of_bytes.
  destruct (drop_underscores x00 text) as [s|]; [|congruence].
  destruct (rstrip_keep1 (lstrip s)) as [|c s']; [congruence|].
  destruct (match strtod (c :: s') with Some r => Some r | None => inf_or_nan (c :: s') end)
    as [[v [|? ?]]|]; congruence.
Qed.

Lemma decode_Raise (text : bytes) (e : exn) :
  decode text = Raise e -> e = ValueError (Undecodable text).
Proof. unfold decode. destruct (forallb _ text); congruence. Qed.

Lemma strptime_Raise (text : string) (e : exn) :
  strptime text = Raise e -> field_error e.
Proof.
  unfold strptime.
  destruct (pattern (list_ascii_of_string text)) as [|[t [|? ?]] ?];
    try (intros [= <-]; exact I).
  destruct (day t >? _); [intros [= <-]; exact I|].
  destruct (second t >? 59); [intros [= <-]; exact I | discriminate].
Qed.

Lemma decode_timestamp_Raise (utcoffset : Z) (date utctime : bytes) (e : exn) :
  decode_timestamp utcoffset date utctime = Raise e -> field_error e.
Proof.
  unfold decode_timestamp. intros H.
  apply rbind_Raise in H. destruct H as [H|(d & _ & H)].
  { apply decode_Raise in H. subst e. exact I. }
  apply rbind_Raise in H. destruct H as [H|(u & _ & H)].
  { apply decode_Raise in H. subst e. exact I. }
  apply rbind_Raise in H. destruct H as [H|(t & _ & H)].
  { apply strptime_Raise in H. exact H. }
  discriminate H.
Qed.

Lemma parse_fields_Raise (utcoffset : Z)
    (lat_ ns lng_ ew date utctime alt_ speed_ course : bytes) (e : exn) :
  parse_fields utcoffset lat_ ns lng_ ew date utctime alt_ speed_ course = Raise e ->
  field_error e.
Proof.
  unfold parse_fields. intros H.
  repeat (apply rbind_Raise in H;
          destruct H as [H|(? & _ & H)];
          [ first [ apply float_of_bytes_Raise in H; subst e; exact I
                  | apply decode_timestamp_Raise in H; exact H ] | ]).
  discriminate H.
Qed.

(** An exception of [parse_gpsinfo] is a ValueError. *)
Lemma parse_gpsinfo_Raise (utcoffset : Z) (gpsinfo : bytes) (e : exn) :
  parse_gpsinfo utcoffset gpsinfo = Raise e ->
  (e = ValueError WrongFormat /\ well_framed (splitlines gpsinfo) = false)
  \/ (well_framed (splitlines gpsinfo) = true /\
      (e = ValueError NoInfoLine \/ (exists n, e = ValueError (Unpack 9 n))
       \/ field_error e)).
Proof.
  unfold parse_gpsinfo, parse_lines.
  destruct (well_framed (splitlines gpsinfo)); cbn [negb].
  2:{ intros [= <-]. left. split; reflexivity. }
  intros H. right. split; [reflexivity|]. revert H.
  induction (splitlines gpsinfo) as [|line rest IH]; cbn [first_info_line].
  - intros [= <-]. left. reflexivity.
  - destruct (startswith INFO_PREFIX line); [|exact IH].
    unfold parse_gpsinfo_line.
    destruct (split "," _) as [|f1 [|f2 [|f3 [|f4 [|f5 [|f6 [|f7 [|f8 [|f9 [|f10 fs]]]]]]]]]];
      try (intros [= <-]; right; left; eexists; reflexivity).
    intros H. right. right. exact (parse_fields_Raise _ _ _ _ _ _ _ _ _ _ _ H).
Qed.

(** [parse_gpsinfo] raises the 'Wrong format' error on the transcripts that
    fail the framing test and on no other. *)
Lemma parse_gpsinfo_wrong_format_only (utcoffset : Z) (gpsinfo : bytes) :
  parse_gpsinfo utcoffset gpsinfo = Raise (ValueError WrongFormat) ->
  well_framed (splitlines gpsinfo) = false.
Proof.
  intros H. apply parse_gpsinfo_Raise in H.
  destruct H as [[_ H]|[_ [H|[[n H]|H]]]];
    [exact H | discriminate H | discriminate H | destruct H].
Qed.

(** C8: unless the first line is the echo AT+CGPSINFO and the last line is
    OK, [parse_gpsinfo] raises the framing error (ValueError 'Wrong format,
    no AT+CGPSINFO or no OK line.'), whatever the transcript. *)
Theorem parse_gpsinfo_bad_framing (utcoffset : Z) (gpsinfo : bytes) :
  ~ (first_line (splitlines gpsinfo) = Some GPS_INFO
     /\ last_line (splitlines gpsinfo) = Some OK) ->
  parse_gpsinfo utcoffset gpsinfo = Raise (ValueError WrongFormat).
Proof.
  intros H. unfold parse_gpsinfo, parse_lines.
  destruct (well_framed (splitlines gpsinfo)) eqn:E.
  - exfalso. apply H, well_framed_iff, E.
  - reflexivity.
Qed.

Lemma parse_gpsinfo_bad_framing_witness :
  parse_gpsinfo 0 reply_without_ok = Raise (ValueError WrongFormat).
Proof.
  apply (parse_gpsinfo_bad_framing 0 reply_without_ok).
  intros [_ H]. vm_compute in H. discriminate H.
Defined.

(** ** The fields of the data line (claims C1, C2, C9) *)

(** The hemisphere fields are [bytes] and are compared with the [str]
    literals 'S' and 'W': the two tests of [parse_gpsinfo_line] are false
    for every field. *)
Lemma hemisphere_test_false (field : bytes) (letter : string) :
  py_eq (PyBytes field) (PyStr letter) = false.
Proof. reflexivity. Qed.

Lemma parse_fields_hemisphere_ignored (utcoffset : Z)
    (lat_ ns ns' lng_ ew ew' date utctime alt_ speed_ course : bytes) :
  parse_fields utcoffset lat_ ns lng_ ew date utctime alt_ speed_ course
  = parse_fields utcoffset lat_ ns' lng_ ew' date utctime alt_ speed_ course.
Proof. reflexivity. Qed.

(** The record that [parse_fields] builds when every field converts. *)
Lemma parse_fields_Return (utcoffset : Z)
    (lat_ ns lng_ ew date utctime alt_ speed_ course : bytes)
    (a1 a2 a3 a4 fa fs : float) (d u : string) (t : datetime) :
  float_of_bytes (firstn 2 lat_) = Return a1 ->
  float_of_bytes (skipn 2 lat_) = Return a2 ->
  float_of_bytes (firstn 3 lng_) = Return a3 ->
  float_of_bytes (skipn 3 lng_) = Return a4 ->
  decode date = Return d ->
  decode utctime = Return u ->
  strptime (d ++ " " ++ u) = Return t ->
  float_of_bytes alt_ = Return fa ->
  float_of_bytes speed_ = Return fs ->
  parse_fields utcoffset lat_ ns lng_ ew date utctime alt_ speed_ course
  = Return (mkGPSInfo (Float.add a1 (Float.div a2 (Float.of_Z 60)))
                      (Float.add a3 (Float.div a4 (Float.of_Z 60)))
                      (timestamp utcoffset t) fa fs).
Proof.
  intros H1 H2 H3 H4 Hd Hu Ht Ha Hs.
  unfold parse_fields, decode_timestamp.
  rewrite H1, H2, H3, H4, Hd, Hu. cbn [rbind].
  rewrite Ht, Ha, Hs. reflexivity.
Qed.

Lemma parse_fields_example (utcoffset : Z) (ns ew : bytes) :
  parse_fields utcoffset (b "3110.123456") ns (b "12130.654321") ew
               (b "010124") (b "235959.500000") (b "12.3") (b "0.5") (b "0")
  = Return (mkGPSInfo example_lat example_lng (timestamp utcoffset example_time)
                      (Float.of_decimal 123 (-1)) (Float.of_decimal 5 (-1))).
Proof.
  apply parse_fields_Return with (d := "010124"%string) (u := "235959.500000"%string);
    by_computation.
Qed.

(** C1, at the input where it fails: for a fix in the southern and western
    hemispheres the code returns the latitude and the longitude with the
    positive sign, the very values it returns for N and E. *)
Theorem parse_gpsinfo_line_south_west_not_negated (utcoffset : Z) :
  exists info,
    parse_gpsinfo_line utcoffset south_west_line = Return info
    /\ lat info = S754_finite false 8773215937060859 (-48)
    /\ lng info = S754_finite false 8550569813370494 (-46)
    /\ (0 < Float.to_Q (lat info))%Q
    /\ (0 < Float.to_Q (lng info))%Q.
Proof.
  eexists. split.
  - change (parse_gpsinfo_line utcoffset south_west_line)
      with (parse_fields utcoffset (b "3110.123456") (b "S") (b "12130.654321") (b "W")
              (b "010124") (b "235959.500000") (b "12.3") (b "0.5") (b "0")).
    apply parse_fields_example.
  - cbn [lat lng]. repeat split; by_computation.
Qed.

(** C2, at the input where it fails: on a host two hours east of UTC the
    fields 010124 and 235959.500000 give 1704146399.5, which is
    2024-01-01T21:59:59.5 UTC, and not 1704153599.5. *)
Theorem decode_timestamp_reads_local_time :
  exists x,
    decode_timestamp 7200 (b "010124") (b "235959.500000") = Return x
    /\ (Float.to_Q x == (3408292799 # 2))%Q
    /\ (Float.to_Q (utc_instant example_time) == (3408307199 # 2))%Q
    /\ x <> utc_instant example_time.
Proof.
  exists (S754_finite false 7147708060008448 (-22)).
  split; [by_computation|]. split; [by_computation|]. split; [by_computation|].
  vm_compute. discriminate.
Qed.

(** On a host whose local zone is UTC the timestamp is the UTC instant. *)
Lemma decode_timestamp_utc_host :
  decode_timestamp 0 (b "010124") (b "235959.500000")
  = Return (utc_instant example_time)
  /\ (Float.to_Q (utc_instant example_time) == (3408307199 # 2))%Q.
Proof. split; by_computation. Qed.

(** The seconds that [timestamp] converts are the wall-clock seconds less
    the offset of the host's zone. *)
Lemma timestamp_offset (utcoffset : Z) (t : datetime) :
  timestamp utcoffset t
  = Float.add (Float.of_Z (wall_seconds t - utcoffset))
              (Float.div (Float.of_Z (microsecond t)) (Float.of_Z 1000000)).
Proof. reflexivity. Qed.

(** C9: on a transcript with the three lines of the example [parse_gpsinfo]
    returns a complete record: latitude 31 + 10.123456/60 and longitude
    121 + 30.654321/60 in float arithmetic, which are 31.168724 and
    121.510905 to six decimals, altitude the float 12.3, speed 0.5, and the
    timestamp of 1 January 2024 23:59:59.5. *)
Theorem parse_gpsinfo_example (utcoffset : Z) (gpsinfo : bytes) :
  splitlines gpsinfo = fix_lines ->
  exists info,
    parse_gpsinfo utcoffset gpsinfo = Return info
    /\ lat info = example_lat
    /\ lng info = example_lng
    /\ ((311687235 # 10000000) < Float.to_Q (lat info)
        /\ Float.to_Q (lat info) < (311687245 # 10000000))%Q
    /\ ((1215109045 # 10000000) < Float.to_Q (lng info)
        /\ Float.to_Q (lng info) < (1215109055 # 10000000))%Q
    /\ float_of_bytes (b "12.3") = Return (alt info)
    /\ (Float.to_Q (speed info) == (1 # 2))%Q
    /\ gps_timestamp info = timestamp utcoffset example_time.
Proof.
  intros Hlines. eexists. split.
  - unfold parse_gpsinfo. rewrite Hlines.
    change (parse_lines utcoffset fix_lines)
      with (parse_fields utcoffset (b "3110.123456") (b "N") (b "12130.654321") (b "E")
              (b "010124") (b "235959.500000") (b "12.3") (b "0.5") (b "0")).
    apply parse_fields_example.
  - cbn [lat lng alt speed gps_timestamp].
    repeat split; by_computation.
Qed.

Lemma parse_gpsinfo_example_witness :
  splitlines fix_reply = fix_lines /\
  exists info,
    parse_gpsinfo 0 fix_reply = Return info
    /\ lat info = example_lat
    /\ lng info = example_lng
    /\ ((311687235 # 10000000) < Float.to_Q (lat info)
        /\ Float.to_Q (lat info) < (311687245 # 10000000))%Q
    /\ ((1215109045 # 10000000) < Float.to_Q (lng info)
        /\ Float.to_Q (lng info) < (1215109055 # 10000000))%Q
    /\ float_of_bytes (b "12.3") = Return (alt info)
    /\ (Float.to_Q (speed info) == (1 # 2))%Q
    /\ gps_timestamp info = timestamp 0 example_time.
Proof.
  split; [vm_compute; reflexivity|].
  apply (parse_gpsinfo_example 0 fix_reply). vm_compute. reflexivity.
Defined.

(** ** The all-empty data line in the parser (claim C3) *)

Lemma first_info_line_skip (utcoffset : Z) (pre rest : list bytes) :
  Forall (fun l => startswith INFO_PREFIX l = false) pre ->
  first_info_line utcoffset (pre ++ rest) = first_info_line utcoffset rest.
Proof.
  induction 1 as [|l pre Hl _ IH]; [reflexivity|].
  cbn [app first_info_line]. rewrite Hl. exact IH.
Qed.

Lemma skipn_prefix (p r : bytes) : skipn (List.length p) (p ++ r) = r.
Proof. induction p as [|x p IH]; [reflexivity | exact IH]. Qed.

(** The reply of a modem without a fix makes the parser raise. *)
Lemma parse_gpsinfo_empty_reply_raises :
  parse_gpsinfo 0 empty_reply = Raise (ValueError (NotAFloat [])).
Proof. by_computation. Qed.

(** C3, as the code has it: on a well-framed transcript whose first data
    line is [+CGPSINFO: ,,,,,,,,] the parser raises ValueError (the empty
    latitude is no float); it has no outcome for 'no fix yet'.  Such a
    transcript contains [,,,,,,], the test by which the session recognises
    the empty reply before it would call the parser. *)
Theorem parse_gpsinfo_empty_fix_raises (utcoffset : Z) (gpsinfo : bytes)
    (pre post : list bytes) :
  splitlines gpsinfo = pre ++ empty_line :: post ->
  well_framed (splitlines gpsinfo) = true ->
  Forall (fun l => startswith INFO_PREFIX l = false) pre ->
  parse_gpsinfo utcoffset gpsinfo = Raise (ValueError (NotAFloat []))
  /\ contains (b ",,,,,,") gpsinfo = true.
Proof.
  intros Hlines Hframed Hpre. split.
  - unfold parse_gpsinfo, parse_lines. rewrite Hframed. cbn [negb].
    rewrite Hlines, (first_info_line_skip utcoffset pre _ Hpre).
    cbn [first_info_line]. unfold empty_line.
    rewrite startswith_app, skipn_prefix. reflexivity.
  - apply (contains_line _ gpsinfo empty_line).
    + rewrite Hlines. apply in_elt.
    + by_computation.
Qed.

Lemma parse_gpsinfo_empty_fix_raises_witness :
  parse_gpsinfo 0 empty_reply = Raise (ValueError (NotAFloat []))
  /\ contains (b ",,,,,,") empty_reply = true.
Proof.
  apply (parse_gpsinfo_empty_fix_raises 0 empty_reply [GPS_INFO] [OK]).
  - vm_compute. reflexivity.
  - vm_compute. reflexivity.
  - constructor; [vm_compute; reflexivity | constructor].
Defined.

(** ** The transport *)

Section Transport.

Variable comm : Serial.

Lemma writes_of_app (tr tr' : list event) :
  writes_of (tr ++ tr') = writes_of tr ++ writes_of tr'.
Proof. apply flat_map_app. Qed.

Lemma bind_eq {A B} (c : M comm A) (k : A -> M comm B) (w : world comm) :
  bind c k w = k (fst (c w)) (snd (c w)).
Proof. unfold bind. destruct (c w). reflexivity. Qed.

(** The four ways [send_at_complex] ends: no response, no [return] at all,
    the marker found, the marker missing. *)
Lemma send_at_complex_result (command back : bytes) (timeout : Z) (w : world comm) :
  fst (send_at_complex comm command back timeout w)
  = match answer_of comm command timeout (fst w) with
    | None => Some (0, [])
    | Some [] => None
    | Some answer =>
        if contains back answer then Some (1, answer) else Some (0, answer)
    end.
Proof.
  unfold send_at_complex, answer_of.
  rewrite ?bind_eq. cbn [write sleep inWaiting fst snd].
  destruct (dev_inWaiting comm _ =? 0); cbn [negb].
  - rewrite ?bind_eq. reflexivity.
  - rewrite ?bind_eq. cbn [sleep inWaiting fst snd].
    rewrite ?bind_eq. unfold read. cbn [fst snd].
    destruct (dev_read comm _ _) as [answer p']. cbn [fst snd].
    destruct answer as [|c answer]; [reflexivity|].
    destruct (contains back (c :: answer)); cbn [negb];
      rewrite ?bind_eq; reflexivity.
Qed.

(** [send_at_complex] writes its command, once, and nothing else. *)
Lemma send_at_complex_writes (command back : bytes) (timeout : Z) (w : world comm) :
  writes_of (snd (snd (send_at_complex comm command back timeout w)))
  = writes_of (snd w) ++ [command ++ CRLF].
Proof.
  unfold send_at_complex.
  rewrite ?bind_eq. cbn [write sleep inWaiting fst snd].
  destruct (dev_inWaiting comm _ =? 0); cbn [negb].
  - rewrite ?bind_eq. cbn [print ret fst snd].
    rewrite !writes_of_app. cbn. rewrite !app_nil_r. reflexivity.
  - rewrite ?bind_eq. cbn [sleep inWaiting fst snd].
    rewrite ?bind_eq. unfold read. cbn [fst snd].
    destruct (dev_read comm _ _) as [answer p']. cbn [fst snd].
    destruct answer as [|c answer].
    + cbn [ret snd]. rewrite !writes_of_app. cbn. rewrite !app_nil_r. reflexivity.
    + destruct (contains back (c :: answer)); cbn [negb];
        rewrite ?bind_eq; cbn [print ret fst snd];
        rewrite !writes_of_app; cbn; rewrite !app_nil_r; reflexivity.
Qed.

(** C10: when bytes wait after the settle time and the read after the
    grace time returns the empty bytes, [send_at_complex] ends without a
    [return]: its value is Python's [None], not a (status, answer) pair. *)
Theorem send_at_complex_falls_through (command back : bytes) (timeout : Z)
    (w : world comm) :
  dev_inWaiting comm (dev_sleep comm timeout (dev_write comm (command ++ CRLF) (fst w)))
    <> 0 ->
  fst (dev_read comm
         (dev_inWaiting comm
            (dev_sleep comm 10
               (dev_sleep comm timeout (dev_write comm (command ++ CRLF) (fst w)))))
         (dev_sleep comm 10
            (dev_sleep comm timeout (dev_write comm (command ++ CRLF) (fst w)))))
    = [] ->
  fst (send_at_complex comm command back timeout w) = None.
Proof.
  intros Hwaiting Hread.
  rewrite send_at_complex_result. unfold answer_of.
  destruct (Z.eqb_spec (dev_inWaiting comm
     (dev_sleep comm timeout (dev_write comm (command ++ CRLF) (fst w)))) 0)
    as [E|_]; [contradiction|].
  rewrite Hread. reflexivity.
Qed.

End Transport.

Lemma send_at_complex_falls_through_witness :
  fst (send_at_complex stalled GPS_INFO INFO_PREFIX 1000 (([] : port stalled), [])) = None.
Proof.
  apply (send_at_complex_falls_through stalled GPS_INFO INFO_PREFIX 1000).
  - vm_compute. discriminate.
  - vm_compute. reflexivity.
Defined.

(** ** The session *)

Section SessionFacts.

Variable comm : Serial.
Variable utcoffset : Z.

Local Notation "'INFO_QUERY'" := (send_at_complex comm GPS_INFO INFO_PREFIX 1000).

Lemma get_gps_position_eq (fuel : nat) (w : world comm) :
  get_gps_position comm utcoffset fuel w
  = poll comm utcoffset fuel true (snd (start_session comm w)).
Proof. unfold get_gps_position. apply bind_eq. Qed.

(** The start of the session writes the start command and goes on,
    whatever [send_at_complex] returned for it. *)
Lemma start_session_writes (w : world comm) :
  writes_of (snd (snd (start_session comm w)))
  = writes_of (snd w) ++ [GPS_STANDALONE ++ CRLF].
Proof.
  unfold start_session. rewrite ?bind_eq. cbn [sleep ret fst snd].
  rewrite writes_of_app, send_at_complex_writes. cbn [print fst snd].
  rewrite writes_of_app. cbn. rewrite !app_nil_r. reflexivity.
Qed.

(** One turn of the loop, by what the query returned. *)
Lemma poll_no_outcome (fuel : nat) (w w1 : world comm) :
  INFO_QUERY w = (None, w1) ->
  poll comm utcoffset (S fuel) true w = (Some (Raise TypeError_unpack_None), w1).
Proof. intros H. cbn [poll]. rewrite bind_eq, H. reflexivity. Qed.

Lemma poll_fix (fuel : nat) (w w1 : world comm) (status : Z) (answer : bytes) :
  INFO_QUERY w = (Some (status, answer), w1) ->
  status <> 0 ->
  contains (b ",,,,,,") answer = false ->
  poll comm utcoffset (S fuel) true w
  = (Some (lift_fix (parse_gpsinfo utcoffset answer)), w1).
Proof.
  intros H Hs Hc. cbn [poll]. rewrite bind_eq, H. cbn [fst snd].
  destruct (Z.eqb_spec status 0); [contradiction|]. cbn [negb].
  rewrite Hc. reflexivity.
Qed.

Lemma poll_not_ready (fuel : nat) (w w1 : world comm) (status : Z) (answer : bytes) :
  INFO_QUERY w = (Some (status, answer), w1) ->
  status <> 0 ->
  contains (b ",,,,,,") answer = true ->
  exists w',
    poll comm utcoffset (S (S fuel)) true w = (Some (Return None), w')
    /\ writes_of (snd w') = writes_of (snd w) ++ [GPS_INFO ++ CRLF].
Proof.
  intros H Hs Hc. eexists. split.
  - cbn [poll]. rewrite bind_eq, H. cbn [fst snd].
    destruct (Z.eqb_spec status 0); [contradiction|]. cbn [negb].
    rewrite Hc, ?bind_eq. reflexivity.
  - cbn [print sleep fst snd]. rewrite !writes_of_app. cbn. rewrite !app_nil_r.
    pose proof (send_at_complex_writes comm GPS_INFO INFO_PREFIX 1000 w) as Hw.
    rewrite H in Hw. exact Hw.
Qed.

Lemma poll_failure (fuel : nat) (w w1 : world comm) (answer : bytes) :
  INFO_QUERY w = (Some (0, answer), w1) ->
  exists w',
    poll comm utcoffset (S fuel) true w = (Some (Return None), w')
    /\ writes_of (snd w')
       = writes_of (snd w) ++ [GPS_INFO ++ CRLF; GPS_STOP ++ CRLF].
Proof.
  intros H. eexists. split.
  - cbn [poll]. rewrite bind_eq, H. cbn [fst snd Z.eqb negb].
    rewrite ?bind_eq. reflexivity.
  - cbn [ret snd]. rewrite send_at_complex_writes. cbn [print fst snd].
    rewrite writes_of_app. cbn. rewrite app_nil_r.
    pose proof (send_at_complex_writes comm GPS_INFO INFO_PREFIX 1000 w) as Hw.
    rewrite H in Hw. cbn [snd] in Hw. rewrite Hw, <- app_assoc. reflexivity.
Qed.

(** The loop ends at its second test of the condition at the latest, after
    one query. *)
Lemma poll_terminates (fuel : nat) (w : world comm) :
  exists w',
    poll comm utcoffset (S (S fuel)) true w
    = (Some (session_result utcoffset (fst (INFO_QUERY w))), w')
    /\ exists rest,
         writes_of (snd w') = writes_of (snd w) ++ (GPS_INFO ++ CRLF) :: rest
         /\ ~ In (GPS_INFO ++ CRLF) rest.
Proof.
  destruct (INFO_QUERY w) as [[[status answer]|] w1] eqn:H; cbn [fst session_result].
  - destruct (Z.eqb_spec status 0) as [->|Hs].
    + destruct (poll_failure (S fuel) w w1 answer H) as (w' & Hp & Hw).
      exists w'. split; [exact Hp|]. exists [GPS_STOP ++ CRLF]. split; [exact Hw|].
      intros [E|[]]. vm_compute in E. discriminate E.
    + destruct (contains (b ",,,,,,") answer) eqn:Hc.
      * destruct (poll_not_ready fuel w w1 status answer H Hs Hc) as (w' & Hp & Hw).
        exists w'. split; [exact Hp|]. exists []. split; [exact Hw|]. intros [].
      * exists w1. split; [apply (poll_fix _ w w1 status answer H Hs Hc)|].
        exists []. split; [|intros []].
        pose proof (send_at_complex_writes comm GPS_INFO INFO_PREFIX 1000 w) as Hw.
        rewrite H in Hw. exact Hw.
  - exists w1. split; [apply (poll_no_outcome _ w w1 H)|].
    exists []. split; [|intros []].
    pose proof (send_at_complex_writes comm GPS_INFO INFO_PREFIX 1000 w) as Hw.
    rewrite H in Hw. exact Hw.
Qed.

(** C4, as the code has it: the session sends the start command and does
    not look at its outcome; in every run the GPS-info query is the next
    command written. *)
Theorem session_polls_whatever_the_start (fuel : nat) (w : world comm) :
  exists rest,
    writes_of (snd (snd (get_gps_position comm utcoffset (S fuel) w)))
    = writes_of (snd w) ++ (GPS_STANDALONE ++ CRLF) :: (GPS_INFO ++ CRLF) :: rest.
Proof.
  rewrite get_gps_position_eq. cbn [poll]. rewrite bind_eq.
  set (w0 := snd (start_session comm w)).
  assert (Hw0 : writes_of (snd (snd (INFO_QUERY w0)))
                = writes_of (snd w) ++ [GPS_STANDALONE ++ CRLF; GPS_INFO ++ CRLF]).
  { rewrite send_at_complex_writes. unfold w0.
    rewrite start_session_writes, <- app_assoc. reflexivity. }
  destruct (INFO_QUERY w0) as [[[status answer]|] w1]; cbn [fst snd] in *.
  - destruct (status =? 0); cbn [negb].
    + exists [GPS_STOP ++ CRLF]. rewrite ?bind_eq. cbn [ret snd].
      rewrite send_at_complex_writes. cbn [print fst snd].
      rewrite writes_of_app, Hw0. cbn. rewrite app_nil_r, <- app_assoc. reflexivity.
    + destruct (contains (b ",,,,,,") answer).
      * exists []. rewrite ?bind_eq. cbn [print sleep fst snd].
        destruct fuel; cbn [poll ret snd];
          rewrite !writes_of_app, Hw0; cbn; rewrite !app_nil_r; reflexivity.
      * exists []. exact Hw0.
  - exists []. exact Hw0.
Qed.

(** C5, as the code has it: every run ends, after one GPS-info query, and
    hands its caller a fix, [None] or an exception; it hands [None] both when
    the query failed and when the reply had the empty fields. *)
Theorem get_gps_position_outcome (fuel : nat) (w : world comm) :
  exists w',
    get_gps_position comm utcoffset (S (S fuel)) w
    = (Some (session_result utcoffset (fst (INFO_QUERY (snd (start_session comm w))))), w')
    /\ (forall answer, session_result utcoffset (Some (0, answer)) = Return None)
    /\ (forall status answer,
          contains (b ",,,,,,") answer = true ->
          session_result utcoffset (Some (status, answer)) = Return None)
    /\ exists rest,
         writes_of (snd w')
         = writes_of (snd w) ++ (GPS_STANDALONE ++ CRLF) :: (GPS_INFO ++ CRLF) :: rest
         /\ ~ In (GPS_INFO ++ CRLF) rest.
Proof.
  rewrite get_gps_position_eq.
  destruct (poll_terminates fuel (snd (start_session comm w)))
    as (w' & Hp & rest & Hw & Hrest).
  exists w'. split; [exact Hp|]. split; [reflexivity|]. split.
  - intros status answer Hc. cbn [session_result]. rewrite Hc.
    destruct (status =? 0); reflexivity.
  - exists rest. split; [|exact Hrest].
    rewrite Hw, start_session_writes, <- app_assoc. reflexivity.
Qed.

(** C6, as the code has it: when the query's reply has the marker and the
    empty fields, the session leaves the loop at once: it returns [None]
    having written the start command and one query, and no stop command. *)
Theorem session_not_ready_exits_after_one_query (fuel : nat) (w w1 : world comm)
    (status : Z) (answer : bytes) :
  INFO_QUERY (snd (start_session comm w)) = (Some (status, answer), w1) ->
  status <> 0 ->
  contains (b ",,,,,,") answer = true ->
  exists w',
    get_gps_position comm utcoffset (S (S fuel)) w = (Some (Return None), w')
    /\ writes_of (snd w')
       = writes_of (snd w) ++ [GPS_STANDALONE ++ CRLF; GPS_INFO ++ CRLF].
Proof.
  intros H Hs Hc. rewrite get_gps_position_eq.
  destruct (poll_not_ready fuel _ w1 status answer H Hs Hc) as (w' & Hp & Hw).
  exists w'. split; [exact Hp|].
  rewrite Hw, start_session_writes, <- app_assoc. reflexivity.
Qed.

(** C7: when the query returns status 0, which [send_at_complex] does for
    no response and for an answer without the marker, the session writes
    the stop command and returns [None]; the query was its only one. *)
Theorem session_failed_query_stops (fuel : nat) (w w1 : world comm) (answer : bytes) :
  INFO_QUERY (snd (start_session comm w)) = (Some (0, answer), w1) ->
  exists w',
    get_gps_position comm utcoffset (S fuel) w = (Some (Return None), w')
    /\ writes_of (snd w')
       = writes_of (snd w)
         ++ [GPS_STANDALONE ++ CRLF; GPS_INFO ++ CRLF; GPS_STOP ++ CRLF].
Proof.
  intros H. rewrite get_gps_position_eq.
  destruct (poll_failure fuel _ w1 answer H) as (w' & Hp & Hw).
  exists w'. split; [exact Hp|].
  rewrite Hw, start_session_writes, <- app_assoc. reflexivity.
Qed.

End SessionFacts.

(** ** Concrete runs *)

(** Against C4 as stated: the start command gets no response, and the
    session still sends the GPS-info query. *)
Lemma start_outcome_not_checked :
  fst (start_session scripted silent_port) = Some (0, [])
  /\ writes_of (snd (snd (get_gps_position scripted 0 2 silent_port)))
     = [GPS_STANDALONE ++ CRLF; GPS_INFO ++ CRLF; GPS_STOP ++ CRLF].
Proof. split; by_computation. Qed.

(** Against C5 as stated: a run whose query is answered with the empty
    fields and a run whose query gets no response return the same value. *)
Lemma not_ready_and_failure_return_alike :
  query not_ready_port = Some (1, empty_reply)
  /\ query silent_port = Some (0, [])
  /\ fst (get_gps_position scripted 0 2 not_ready_port) = Some (Return None)
  /\ fst (get_gps_position scripted 0 2 silent_port) = Some (Return None).
Proof. repeat split; by_computation. Qed.

(** Against C6 as stated: the modem would report the empty fields again,
    but the session has left the loop after it saw them once. *)
Lemma not_ready_exit_after_first_empty_reply :
  fst (get_gps_position scripted 0 5 not_ready_port) = Some (Return None)
  /\ count_occ (list_eq_dec Byte.byte_eq_dec)
       (writes_of (snd (snd (get_gps_position scripted 0 5 not_ready_port))))
       (GPS_INFO ++ CRLF) = 1%nat
  /\ snd (fst (snd (get_gps_position scripted 0 5 not_ready_port)))
     = [empty_reply; empty_reply].
Proof. repeat split; by_computation. Qed.

Lemma session_not_ready_exits_after_one_query_witness :
  exists w',
    get_gps_position scripted 0 2 not_ready_port = (Some (Return None), w')
    /\ writes_of (snd w') = [GPS_STANDALONE ++ CRLF; GPS_INFO ++ CRLF].
Proof.
  eapply (session_not_ready_exits_after_one_query scripted 0 0 not_ready_port _ 1 empty_reply).
  - vm_compute. reflexivity.
  - discriminate.
  - vm_compute. reflexivity.
Defined.

Lemma session_failed_query_stops_witness :
  exists w',
    get_gps_position scripted 0 1 silent_port = (Some (Return None), w')
    /\ writes_of (snd w')
       = [GPS_STANDALONE ++ CRLF; GPS_INFO ++ CRLF; GPS_STOP ++ CRLF].
Proof.
  eapply (session_failed_query_stops scripted 0 0 silent_port _ []).
  vm_compute. reflexivity.
Defined.

(** A query with the marker missing is a failure as well: the modem answers
    ERROR, the session stops. *)
Example session_unexpected_reply :
  query (([], [ok_reply; b "ERROR" ++ CRLF]), []) = Some (0, b "ERROR" ++ CRLF)
  /\ fst (get_gps_position scripted 0 1 (([], [ok_reply; b "ERROR" ++ CRLF]), []))
     = Some (Return None).
Proof. split; by_computation. Qed.

(** With the port that reads nothing the session ends in a TypeError. *)
Example session_no_outcome :
  fst (get_gps_position stalled 0 2 (([] : port stalled), []))
  = Some (Raise TypeError_unpack_None).
Proof. by_computation. Qed.

(** A complete reply gives the fix. *)
Example session_fix :
  exists info,
    fst (get_gps_position scripted 0 1 (([], [ok_reply; fix_reply]), []))
    = Some (Return (Some info))
    /\ lat info = example_lat /\ lng info = example_lng.
Proof. eexists. split; [by_computation|]. split; by_computation. Qed.

(** * Further properties of the code *)

(** ** The parser *)

Lemma split_length (sep : byte) (s : bytes) :
  List.length (split sep s) = S (count_occ Byte.byte_eq_dec s sep).
Proof.
  induction s as [|c s IH]; [reflexivity|].
  cbn [split count_occ].
  destruct (Byte.byte_eq_dec c sep) as [->|Hne].
  - rewrite (proj2 (byte_eqb_eq sep sep) eq_refl). cbn [List.length].
    rewrite IH. reflexivity.
  - destruct (Byte.eqb c sep) eqn:E; [apply byte_eqb_eq in E; contradiction|].
    destruct (split sep s); [discriminate IH | exact IH].
Qed.

(** A data line that does not have eight commas fails in the unpacking of
    its fields, with the number of fields it has. *)
Theorem parse_gpsinfo_line_field_count (utcoffset : Z) (line : bytes) :
  count_occ Byte.byte_eq_dec line ","%byte <> 8%nat ->
  parse_gpsinfo_line utcoffset line
  = Raise (ValueError (Unpack 9 (S (count_occ Byte.byte_eq_dec line ","%byte)))).
Proof.
  intros H. unfold parse_gpsinfo_line.
  pose proof (split_length "," line) as L.
  destruct (split "," line)
    as [|f1 [|f2 [|f3 [|f4 [|f5 [|f6 [|f7 [|f8 [|f9 [|f10 fs]]]]]]]]]];
    cbn [List.length] in L; try (rewrite <- L; reflexivity).
  exfalso. apply H. lia.
Qed.

Lemma parse_gpsinfo_line_field_count_witness :
  parse_gpsinfo_line 0 (b "3110.123456,N,12130.654321,E")
  = Raise (ValueError (Unpack 9 4)).
Proof.
  apply (parse_gpsinfo_line_field_count 0 (b "3110.123456,N,12130.654321,E")).
  vm_compute. discriminate.
Defined.

(** On a well-framed transcript the first line with the prefix decides:
    the result is that of its remainder, and no other line matters, be it
    blank, unknown or a second data line. *)
Theorem parse_gpsinfo_first_data_line (utcoffset : Z) (gpsinfo rest : bytes)
    (pre post : list bytes) :
  splitlines gpsinfo = pre ++ (INFO_PREFIX ++ rest) :: post ->
  well_framed (splitlines gpsinfo) = true ->
  Forall (fun l => startswith INFO_PREFIX l = false) pre ->
  parse_gpsinfo utcoffset gpsinfo = parse_gpsinfo_line utcoffset rest.
Proof.
  intros Hlines Hframed Hpre.
  unfold parse_gpsinfo, parse_lines. rewrite Hframed. cbn [negb].
  rewrite Hlines, (first_info_line_skip utcoffset pre _ Hpre).
  cbn [first_info_line]. rewrite startswith_app, skipn_prefix. reflexivity.
Qed.

Lemma parse_gpsinfo_first_data_line_witness :
  parse_gpsinfo 0 reply_with_two_data_lines
  = parse_gpsinfo_line 0
      (b "3110.123456,N,12130.654321,E,010124,235959.500000,12.3,0.5,0").
Proof.
  apply (parse_gpsinfo_first_data_line 0 reply_with_two_data_lines _
           [GPS_INFO; []] [b "+CGPSINFO: garbage"; []; OK]).
  - vm_compute. reflexivity.
  - vm_compute. reflexivity.
  - repeat constructor.
Defined.

(** A well-framed transcript without a line that starts with the prefix
    gives the 'No line' error. *)
Theorem parse_gpsinfo_no_data_line (utcoffset : Z) (gpsinfo : bytes) :
  well_framed (splitlines gpsinfo) = true ->
  Forall (fun l => startswith INFO_PREFIX l = false) (splitlines gpsinfo) ->
  parse_gpsinfo utcoffset gpsinfo = Raise (ValueError NoInfoLine).
Proof.
  intros Hframed Hnone.
  unfold parse_gpsinfo, parse_lines. rewrite Hframed. cbn [negb].
  rewrite <- (app_nil_r (splitlines gpsinfo)).
  rewrite (first_info_line_skip utcoffset _ [] Hnone). reflexivity.
Qed.

Lemma parse_gpsinfo_no_data_line_witness :
  parse_gpsinfo 0 reply_without_data = Raise (ValueError NoInfoLine).
Proof.
  apply (parse_gpsinfo_no_data_line 0 reply_without_data).
  - vm_compute. reflexivity.
  - repeat constructor.
Defined.

Lemma skipn_short {A} (n : nat) (l : list A) :
  (List.length l <= n)%nat -> skipn n l = [].
Proof. intros H. apply skipn_all2. exact H. Qed.

Lemma float_of_bytes_empty : float_of_bytes [] = Raise (ValueError (NotAFloat [])).
Proof. reflexivity. Qed.

(** A latitude of at most two bytes, or a longitude of at most three, has
    no minutes part: the conversion fails with 'could not convert string to
    float'. *)
Theorem parse_fields_short_coordinate (utcoffset : Z)
    (lat_ ns lng_ ew date utctime alt_ speed_ course : bytes) :
  (List.length lat_ <= 2)%nat \/ (List.length lng_ <= 3)%nat ->
  exists text,
    parse_fields utcoffset lat_ ns lng_ ew date utctime alt_ speed_ course
    = Raise (ValueError (NotAFloat text)).
Proof.
  intros H. unfold parse_fields.
  destruct (float_of_bytes (firstn 2 lat_)) as [a1|e] eqn:E1; cbn [rbind].
  2:{ apply float_of_bytes_Raise in E1. subst e. eexists. reflexivity. }
  destruct (float_of_bytes (skipn 2 lat_)) as [a2|e] eqn:E2; cbn [rbind].
  2:{ apply float_of_bytes_Raise in E2. subst e. eexists. reflexivity. }
  destruct H as [H|H].
  { rewrite (skipn_short 2 lat_ H), float_of_bytes_empty in E2. discriminate E2. }
  destruct (float_of_bytes (firstn 3 lng_)) as [a3|e] eqn:E3; cbn [rbind].
  2:{ apply float_of_bytes_Raise in E3. subst e. eexists. reflexivity. }
  rewrite (skipn_short 3 lng_ H), float_of_bytes_empty. cbn [rbind].
  eexists. reflexivity.
Qed.

Lemma parse_fields_short_coordinate_witness :
  exists text,
    parse_fields 0 (b "31") (b "N") (b "12130.654321") (b "E")
                 (b "010124") (b "235959.500000") (b "12.3") (b "0.5") (b "0")
    = Raise (ValueError (NotAFloat text)).
Proof.
  apply parse_fields_short_coordinate. left. vm_compute. lia.
Defined.

Lemma rbind_Return {A B} (r : result A) (k : A -> result B) (y : B) :
  rbind r k = Return y -> exists a, r = Return a /\ k a = Return y.
Proof.
  destruct r as [a|e]; cbn [rbind]; intros H; [|discriminate H].
  exists a. split; [reflexivity | exact H].
Qed.

(** A record is returned only for a line of nine fields whose latitude,
    longitude, date and time, altitude and speed all convert, and it holds
    the converted values: no field of it is a default. *)
Theorem parse_gpsinfo_line_complete (utcoffset : Z) (line : bytes) (info : GPSInfo) :
  parse_gpsinfo_line utcoffset line = Return info ->
  exists lat_ ns lng_ ew date utctime alt_ speed_ course a1 a2 a3 a4 d u t,
    split "," line = [lat_; ns; lng_; ew; date; utctime; alt_; speed_; course]
    /\ float_of_bytes (firstn 2 lat_) = Return a1
    /\ float_of_bytes (skipn 2 lat_) = Return a2
    /\ lat info = Float.add a1 (Float.div a2 (Float.of_Z 60))
    /\ float_of_bytes (firstn 3 lng_) = Return a3
    /\ float_of_bytes (skipn 3 lng_) = Return a4
    /\ lng info = Float.add a3 (Float.div a4 (Float.of_Z 60))
    /\ decode date = Return d
    /\ decode utctime = Return u
    /\ strptime (d ++ " " ++ u) = Return t
    /\ gps_timestamp info = timestamp utcoffset t
    /\ float_of_bytes alt_ = Return (alt info)
    /\ float_of_bytes speed_ = Return (speed info).
Proof.
  unfold parse_gpsinfo_line.
  destruct (split "," line)
    as [|f1 [|f2 [|f3 [|f4 [|f5 [|f6 [|f7 [|f8 [|f9 [|f10 fs]]]]]]]]]];
    try discriminate.
  unfold parse_fields, decode_timestamp. intros H.
  apply rbind_Return in H. destruct H as (a1 & H1 & H).
  apply rbind_Return in H. destruct H as (a2 & H2 & H).
  apply rbind_Return in H. destruct H as (a3 & H3 & H).
  apply rbind_Return in H. destruct H as (a4 & H4 & H).
  apply rbind_Return in H. destruct H as (ts & Hts & H).
  apply rbind_Return in H. destruct H as (fa & Ha & H).
  apply rbind_Return in H. destruct H as (fs & Hs & H).
  apply rbind_Return in Hts. destruct Hts as (d & Hd & Hts).
  apply rbind_Return in Hts. destruct Hts as (u & Hu & Hts).
  apply rbind_Return in Hts. destruct Hts as (t & Ht & Hts).
  injection Hts as <-. injection H as <-.
  exists f1, f2, f3, f4, f5, f6, f7, f8, f9, a1, a2, a3, a4, d, u, t.
  cbn [lat lng gps_timestamp alt speed].
  repeat split; assumption.
Qed.

Lemma parse_gpsinfo_line_complete_witness :
  exists lat_ ns lng_ ew date utctime alt_ speed_ course a1 a2 a3 a4 d u t,
    split "," (b "3110.123456,N,12130.654321,E,010124,235959.500000,12.3,0.5,0")
    = [lat_; ns; lng_; ew; date; utctime; alt_; speed_; course]
    /\ float_of_bytes (firstn 2 lat_) = Return a1
    /\ float_of_bytes (skipn 2 lat_) = Return a2
    /\ example_lat = Float.add a1 (Float.div a2 (Float.of_Z 60))
    /\ float_of_bytes (firstn 3 lng_) = Return a3
    /\ float_of_bytes (skipn 3 lng_) = Return a4
    /\ example_lng = Float.add a3 (Float.div a4 (Float.of_Z 60))
    /\ decode date = Return d
    /\ decode utctime = Return u
    /\ strptime (d ++ " " ++ u) = Return t
    /\ timestamp 0 example_time = timestamp 0 t
    /\ float_of_bytes alt_ = Return (Float.of_decimal 123 (-1))
    /\ float_of_bytes speed_ = Return (Float.of_decimal 5 (-1)).
Proof.
  apply (parse_gpsinfo_line_complete 0
           (b "3110.123456,N,12130.654321,E,010124,235959.500000,12.3,0.5,0")
           (mkGPSInfo example_lat example_lng (timestamp 0 example_time)
                      (Float.of_decimal 123 (-1)) (Float.of_decimal 5 (-1)))).
  vm_compute. reflexivity.
Defined.

(** The 'Wrong format' error comes from the framing test alone: a
    transcript on which it is raised has no first line AT+CGPSINFO or no
    last line OK. *)
Theorem parse_gpsinfo_wrong_format_is_framing (utcoffset : Z) (gpsinfo : bytes) :
  parse_gpsinfo utcoffset gpsinfo = Raise (ValueError WrongFormat) ->
  ~ (first_line (splitlines gpsinfo) = Some GPS_INFO
     /\ last_line (splitlines gpsinfo) = Some OK).
Proof.
  intros H Hframed. apply well_framed_iff in Hframed.
  apply parse_gpsinfo_Raise in H.
  destruct H as [[_ H]|[_ [H|[[n H]|H]]]];
    [congruence | discriminate H | discriminate H | destruct H].
Qed.

Lemma parse_gpsinfo_wrong_format_is_framing_witness :
  ~ (first_line (splitlines reply_without_ok) = Some GPS_INFO
     /\ last_line (splitlines reply_without_ok) = Some OK).
Proof.
  apply (parse_gpsinfo_wrong_format_is_framing 0 reply_without_ok).
  vm_compute. reflexivity.
Defined.

(** ** The date and the time *)

Lemma yields_mret {A} (a : A) (P : A -> Prop) : P a -> yields (mret a) P.
Proof. intros H s x r [E|[]]. injection E as <- _. exact H. Qed.

Lemma yields_mbind {A B} (p : matcher A) (k : A -> matcher B)
    (P : A -> Prop) (Q : B -> Prop) :
  yields p P -> (forall a, P a -> yields (k a) Q) -> yields (mbind p k) Q.
Proof.
  intros Hp Hk s y r Hin. unfold mbind in Hin.
  apply in_flat_map in Hin. destruct Hin as ([a rest] & Ha & Hy).
  exact (Hk a (Hp s a rest Ha) rest y r Hy).
Qed.

Lemma yields_orelse {A} (p q : matcher A) (P : A -> Prop) :
  yields p P -> yields q P -> yields (orelse p q) P.
Proof.
  intros Hp Hq s a r Hin. unfold orelse in Hin.
  apply in_app_or in Hin. destruct Hin as [H|H]; [exact (Hp s a r H) | exact (Hq s a r H)].
Qed.

Lemma yields_weaken {A} (p : matcher A) (P Q : A -> Prop) :
  yields p P -> (forall a, P a -> Q a) -> yields p Q.
Proof. intros Hp HPQ s a r Hin. exact (HPQ a (Hp s a r Hin)). Qed.

Lemma yields_dig (lo hi : Z) : yields (dig lo hi) (fun n => lo <= n <= hi).
Proof.
  intros s a r Hin. destruct s as [|c s]; [destruct Hin|].
  cbn [dig] in Hin.
  destruct ((lo <=? Z.of_N (N_of_ascii c) - 48) && (Z.of_N (N_of_ascii c) - 48 <=? hi)) eqn:E;
    [|destruct Hin].
  destruct Hin as [Hin|[]]. injection Hin as <- _.
  apply andb_true_iff in E. destruct E as [E1 E2].
  apply Z.leb_le in E1. apply Z.leb_le in E2. split; assumption.
Qed.

Lemma yields_dig2 (a1 b1 c d : Z) :
  yields (dig2 a1 b1 c d) (fun n => 10 * a1 + c <= n <= 10 * b1 + d).
Proof.
  unfold dig2. eapply yields_mbind; [apply yields_dig|].
  intros x Hx. eapply yields_mbind; [apply yields_dig|].
  intros y Hy. apply yields_mret. cbv beta in Hx, Hy. lia.
Qed.

Lemma yields_blanks1 : yields blanks1 (fun _ => True).
Proof. intros s a r _. exact I. Qed.

Lemma yields_lit (c : ascii) : yields (lit c) (fun _ => True).
Proof. intros s a r _. exact I. Qed.

Ltac yields_range :=
  repeat first
    [ apply yields_orelse
    | eapply yields_weaken; [apply yields_dig2 | cbv beta; intros; lia]
    | eapply yields_weaken; [apply yields_dig | cbv beta; intros; lia] ].

Lemma yields_re_d : yields re_d (fun n => 1 <= n <= 31).
Proof.
  unfold re_d. yields_range.
  eapply yields_mbind; [apply yields_lit|]. intros _ _. yields_range.
Qed.

Lemma yields_re_m : yields re_m (fun n => 1 <= n <= 12).
Proof. unfold re_m. yields_range. Qed.

Lemma yields_re_y : yields re_y (fun n => 0 <= n <= 99).
Proof. unfold re_y. yields_range. Qed.

Lemma yields_re_H : yields re_H (fun n => 0 <= n <= 23).
Proof. unfold re_H. yields_range. Qed.

Lemma yields_re_M : yields re_M (fun n => 0 <= n <= 59).
Proof. unfold re_M. yields_range. Qed.

Lemma yields_re_S : yields re_S (fun n => 0 <= n <= 61).
Proof. unfold re_S. yields_range. Qed.

Lemma yields_re_f_upto (n : nat) :
  forall acc : Z,
    0 <= acc -> (acc + 1) * 10 ^ Z.of_nat n <= 1000000 ->
    yields (re_f_upto n acc (10 ^ Z.of_nat n)) (fun v => 0 <= v <= 999999).
Proof.
  induction n as [|n IH]; intros acc Hacc Hbound.
  - intros s a r [].
  - cbn [re_f_upto].
    assert (Hscale : 10 ^ Z.of_nat (S n) / 10 = 10 ^ Z.of_nat n).
    { rewrite Nat2Z.inj_succ, Z.pow_succ_r by lia.
      rewrite Z.mul_comm, Z.div_mul by lia. reflexivity. }
    rewrite Hscale.
    assert (Hpos : 0 < 10 ^ Z.of_nat n) by (apply Z.pow_pos_nonneg; lia).
    assert (Hstep : (acc + 1) * 10 ^ Z.of_nat (S n) = (10 * acc + 10) * 10 ^ Z.of_nat n).
    { rewrite Nat2Z.inj_succ, Z.pow_succ_r by lia. ring. }
    rewrite Hstep in Hbound.
    eapply yields_mbind; [apply (yields_dig 0 9)|].
    intros d Hd. cbv beta in Hd. apply yields_orelse.
    + apply IH; [lia | nia].
    + apply yields_mret. nia.
Qed.

Lemma yields_re_f : yields re_f (fun v => 0 <= v <= 999999).
Proof. unfold re_f. apply (yields_re_f_upto 6 0); [lia | vm_compute; discriminate]. Qed.

Lemma yields_pattern :
  yields pattern (fun t =>
    1969 <= year t <= 2068 /\ 1 <= month t <= 12 /\ 1 <= day t <= 31
    /\ 0 <= hour t <= 23 /\ 0 <= minute t <= 59 /\ 0 <= second t <= 61
    /\ 0 <= microsecond t <= 999999).
Proof.
  unfold pattern.
  eapply yields_mbind; [apply yields_re_d|]. intros d Hd.
  eapply yields_mbind; [apply yields_re_m|]. intros m Hm.
  eapply yields_mbind; [apply yields_re_y|]. intros y Hy.
  eapply yields_mbind; [apply yields_blanks1|]. intros _ _.
  eapply yields_mbind; [apply yields_re_H|]. intros hh Hhh.
  eapply yields_mbind; [apply yields_re_M|]. intros mm Hmm.
  eapply yields_mbind; [apply yields_re_S|]. intros ss Hss.
  eapply yields_mbind; [apply yields_lit|]. intros _ _.
  eapply yields_mbind; [apply yields_re_f|]. intros us Hus.
  apply yields_mret. cbn [year month day hour minute second microsecond].
  cbv beta in *.
  destruct (Z.leb_spec y 68); lia.
Qed.

Lemma strptime_valid (text : string) (t : datetime) :
  strptime text = Return t -> valid_datetime t.
Proof.
  unfold strptime.
  destruct (pattern (list_ascii_of_string text)) as [|[t0 rest] others] eqn:E;
    [discriminate|].
  assert (Hy := yields_pattern (list_ascii_of_string text) t0 rest).
  rewrite E in Hy. specialize (Hy (or_introl eq_refl)).
  destruct rest; [|discriminate].
  destruct (Z.gtb_spec (day t0) (days_in_month (year t0) (month t0))); [discriminate|].
  destruct (Z.gtb_spec (second t0) 59); [discriminate|].
  intros [= <-]. unfold valid_datetime. intuition lia.
Qed.



(** ** The transport and the session *)

Lemma slept_app (tr tr' : list event) : slept (tr ++ tr') = slept tr + slept tr'.
Proof.
  induction tr as [|e tr IH]; [reflexivity|].
  cbn [app slept fold_right]. fold (slept (tr ++ tr')). fold (slept tr).
  rewrite IH. destruct e; lia.
Qed.

Lemma reads_of_app (tr tr' : list event) :
  reads_of (tr ++ tr') = reads_of tr ++ reads_of tr'.
Proof. apply flat_map_app. Qed.

Section TransportFacts.

Variable comm : Serial.

(** What one call of [send_at_complex] adds to the trace. *)
Lemma send_at_complex_news (command back : bytes) (timeout : Z) (w : world comm) :
  exists news,
    snd (snd (send_at_complex comm command back timeout w)) = snd w ++ news
    /\ hd_error news = Some (Write (command ++ CRLF))
    /\ writes_of news = [command ++ CRLF]
    /\ (slept news = timeout \/ slept news = timeout + 10)
    /\ (List.length (reads_of news) <= 1)%nat
    /\ (slept news = timeout -> reads_of news = []).
Proof.
  unfold send_at_complex.
  rewrite ?bind_eq. cbn [write sleep inWaiting fst snd].
  destruct (dev_inWaiting comm _ =? 0); cbn [negb].
  - rewrite ?bind_eq. cbn [print ret fst snd].
    exists [Write (command ++ CRLF); Sleep timeout; Print MsgNotReadyTty].
    rewrite <- !app_assoc. cbn. repeat split; try reflexivity; lia.
  - rewrite ?bind_eq. cbn [sleep inWaiting fst snd].
    rewrite ?bind_eq. unfold read. cbn [fst snd].
    destruct (dev_read comm _ _) as [answer p']. cbn [fst snd].
    destruct answer as [|c answer].
    + cbn [ret snd]. eexists. rewrite <- !app_assoc. split; [reflexivity|].
      cbn. repeat split; try reflexivity; lia.
    + destruct (contains back (c :: answer)); cbn [negb];
        rewrite ?bind_eq; cbn [print ret fst snd];
        eexists; rewrite <- !app_assoc; (split; [reflexivity|]);
        cbn; repeat split; try reflexivity; lia.
Qed.

(** [send_at_complex] adds to the trace the write of its command, first
    and once, a sleep of the settle time or of the settle time and the 10 ms
    of grace, and one read at most, none when it slept the settle time
    only. *)
Theorem send_at_complex_trace (command back : bytes) (timeout : Z) (w : world comm) :
  exists news,
    snd (snd (send_at_complex comm command back timeout w)) = snd w ++ news
    /\ hd_error news = Some (Write (command ++ CRLF))
    /\ writes_of news = [command ++ CRLF]
    /\ (slept news = timeout \/ slept news = timeout + 10)
    /\ (List.length (reads_of news) <= 1)%nat
    /\ (slept news = timeout -> reads_of news = []).
Proof.
  unfold send_at_complex.
  rewrite ?bind_eq. cbn [write sleep inWaiting fst snd].
  destruct (dev_inWaiting comm _ =? 0); cbn [negb].
  - rewrite ?bind_eq. cbn [print ret fst snd].
    exists [Write (command ++ CRLF); Sleep timeout; Print MsgNotReadyTty].
    rewrite <- !app_assoc. cbn. repeat split; try reflexivity; lia.
  - rewrite ?bind_eq. cbn [sleep inWaiting fst snd].
    rewrite ?bind_eq. unfold read. cbn [fst snd].
    destruct (dev_read comm _ _) as [answer p']. cbn [fst snd].
    destruct answer as [|c answer].
    + cbn [ret snd]. eexists. rewrite <- !app_assoc. split; [reflexivity|].
      cbn. repeat split; try reflexivity; lia.
    + destruct (contains back (c :: answer)); cbn [negb];
        rewrite ?bind_eq; cbn [print ret fst snd];
        eexists; rewrite <- !app_assoc; (split; [reflexivity|]);
        cbn; repeat split; try reflexivity; lia.
Qed.

Lemma send_at_complex_reply (command back : bytes) (timeout : Z) (w : world comm)
    (status : Z) (answer : bytes) :
  fst (send_at_complex comm command back timeout w) = Some (status, answer) ->
  (status = 1 /\ answer <> [] /\ contains back answer = true)
  \/ (status = 0 /\ (answer = [] \/ contains back answer = false)).
Proof.
  rewrite send_at_complex_result.
  destruct (answer_of comm command timeout (fst w)) as [[|c a]|].
  - discriminate.
  - destruct (contains back (c :: a)) eqn:E; intros [= <- <-].
    + left. repeat split; [discriminate | exact E].
    + right. split; [reflexivity | right; exact E].
  - intros [= <- <-]. right. split; [reflexivity | left; reflexivity].
Qed.

(** The pair that [send_at_complex] returns tells whether the marker was
    found: status 1 comes with a non-empty answer that contains the marker,
    status 0 with the empty answer or with an answer without the marker. *)
Theorem send_at_complex_status (command back : bytes) (timeout : Z) (w : world comm)
    (status : Z) (answer : bytes) :
  fst (send_at_complex comm command back timeout w) = Some (status, answer) ->
  (status = 1 /\ answer <> [] /\ contains back answer = true)
  \/ (status = 0 /\ (answer = [] \/ contains back answer = false)).
Proof.
  rewrite send_at_complex_result.
  destruct (answer_of comm command timeout (fst w)) as [[|c a]|].
  - discriminate.
  - destruct (contains back (c :: a)) eqn:E; intros [= <- <-].
    + left. repeat split; [discriminate | exact E].
    + right. split; [reflexivity | right; exact E].
  - intros [= <- <-]. right. split; [reflexivity | left; reflexivity].
Qed.

End TransportFacts.

Lemma send_at_complex_status_witness :
  (1 = 1 /\ ok_reply <> [] /\ contains OK ok_reply = true)
  \/ (1 = 0 /\ (ok_reply = [] \/ contains OK ok_reply = false)).
Proof.
  apply (send_at_complex_status scripted GPS_STANDALONE OK 1000
           (([], [ok_reply]), [])).
  vm_compute. reflexivity.
Defined.

Section SessionMore.

Variable comm : Serial.
Variable utcoffset : Z.

Local Notation "'INFO_QUERY'" := (send_at_complex comm GPS_INFO INFO_PREFIX 1000).

Lemma query_writes (w w1 : world comm) (reply : option (Z * bytes)) :
  INFO_QUERY w = (reply, w1) ->
  writes_of (snd w1) = writes_of (snd w) ++ [GPS_INFO ++ CRLF].
Proof.
  intros H. pose proof (send_at_complex_writes comm GPS_INFO INFO_PREFIX 1000 w) as Hw.
  rewrite H in Hw. exact Hw.
Qed.

(** The commands of a session: the start command, one query, and the
    stop command when and only when the query came back with status 0.
    Nothing is written after a fix, after an empty reply or when an
    exception leaves the function. *)
Theorem session_commands (fuel : nat) (w : world comm) :
  writes_of (snd (snd (get_gps_position comm utcoffset (S (S fuel)) w)))
  = writes_of (snd w)
    ++ [GPS_STANDALONE ++ CRLF; GPS_INFO ++ CRLF]
    ++ (if query_failed (fst (INFO_QUERY (snd (start_session comm w))))
        then [GPS_STOP ++ CRLF] else []).
Proof.
  rewrite get_gps_position_eq.
  set (w0 := snd (start_session comm w)).
  assert (Hw0 : writes_of (snd w0) = writes_of (snd w) ++ [GPS_STANDALONE ++ CRLF])
    by apply start_session_writes.
  destruct (INFO_QUERY w0) as [[[status answer]|] w1] eqn:H; cbn [fst query_failed].
  - destruct (Z.eqb_spec status 0) as [->|Hs].
    + destruct (poll_failure comm utcoffset (S fuel) w0 w1 answer H) as (w' & Hp & Hw).
      rewrite Hp. cbn [snd]. rewrite Hw, Hw0, <- app_assoc. reflexivity.
    + destruct (contains (b ",,,,,,") answer) eqn:Hc.
      * destruct (poll_not_ready comm utcoffset fuel w0 w1 status answer H Hs Hc)
          as (w' & Hp & Hw).
        rewrite Hp. cbn [snd]. rewrite Hw, Hw0, <- app_assoc. reflexivity.
      * rewrite (poll_fix comm utcoffset _ w0 w1 status answer H Hs Hc). cbn [snd].
        rewrite (query_writes w0 w1 _ H), Hw0, <- app_assoc. reflexivity.
  - rewrite (poll_no_outcome comm utcoffset _ w0 w1 H). cbn [snd].
    rewrite (query_writes w0 w1 _ H), Hw0, <- app_assoc. reflexivity.
Qed.

(** A fix that the session returns was parsed from the answer to its
    query: that answer had status 1, contains the marker [+CGPSINFO: ] and
    not [,,,,,,], and is a well-framed transcript. *)
Theorem session_fix_provenance (fuel : nat) (w w' : world comm) (info : GPSInfo) :
  get_gps_position comm utcoffset fuel w = (Some (Return (Some info)), w') ->
  exists answer,
    fst (INFO_QUERY (snd (start_session comm w))) = Some (1, answer)
    /\ contains INFO_PREFIX answer = true
    /\ contains (b ",,,,,,") answer = false
    /\ parse_gpsinfo utcoffset answer = Return info
    /\ well_framed (splitlines answer) = true.
Proof.
  rewrite get_gps_position_eq.
  set (w0 := snd (start_session comm w)).
  destruct fuel as [|fuel]; [discriminate|].
  cbn [poll]. rewrite bind_eq.
  pose proof (send_at_complex_reply comm GPS_INFO INFO_PREFIX 1000 w0) as Hst.
  destruct (INFO_QUERY w0) as [[[status answer]|] w1]; cbn [fst snd] in *;
    [|discriminate].
  specialize (Hst status answer eq_refl).
  destruct (Z.eqb_spec status 0) as [->|Hs]; cbn [negb].
  { rewrite ?bind_eq. discriminate. }
  destruct Hst as [(-> & _ & Hmark)|(-> & _)]; [|contradiction].
  destruct (contains (b ",,,,,,") answer) eqn:Hc.
  { rewrite ?bind_eq. cbn [print sleep fst snd].
    destruct fuel; cbn [poll ret]; discriminate. }
  cbn [ret]. intros [= Hp _].
  exists answer. repeat split; try assumption.
  - destruct (parse_gpsinfo utcoffset answer) as [i|e]; cbn [lift_fix] in Hp;
      [injection Hp as <-; reflexivity | discriminate].
  - unfold parse_gpsinfo, parse_lines in Hp.
    destruct (well_framed (splitlines answer)); [reflexivity | discriminate].
Qed.

(** When the answer passes the marker test and has no [,,,,,,] but does
    not parse, the parser's ValueError leaves [get_gps_position]; nothing
    more is done to the port, so no stop command is sent. *)
Theorem session_parse_error_propagates (fuel : nat) (w w1 : world comm)
    (status : Z) (answer : bytes) (e : exn) :
  INFO_QUERY (snd (start_session comm w)) = (Some (status, answer), w1) ->
  status <> 0 ->
  contains (b ",,,,,,") answer = false ->
  parse_gpsinfo utcoffset answer = Raise e ->
  get_gps_position comm utcoffset (S fuel) w = (Some (Raise e), w1)
  /\ exists why, e = ValueError why.
Proof.
  intros H Hs Hc He. split.
  - rewrite get_gps_position_eq.
    rewrite (poll_fix comm utcoffset fuel _ w1 status answer H Hs Hc), He. reflexivity.
  - apply parse_gpsinfo_Raise in He.
    destruct He as [[-> _]|[_ [->|[[n ->]|He]]]]; try (eexists; reflexivity).
    destruct e as [why|]; [eexists; reflexivity | destruct He].
Qed.

Lemma start_session_news (w : world comm) :
  exists news,
    snd (snd (start_session comm w)) = snd w ++ news
    /\ (slept news = 3000 \/ slept news = 3010).
Proof.
  unfold start_session. rewrite ?bind_eq. cbn [sleep ret fst snd].
  destruct (send_at_complex_news comm GPS_STANDALONE OK 1000 (snd (print comm MsgStartSession w)))
    as (news & Htr & _ & _ & Hs & _).
  rewrite Htr. cbn [print fst snd].
  exists ([Print MsgStartSession] ++ news ++ [Sleep 2000]).
  rewrite <- !app_assoc. split; [reflexivity|].
  rewrite !slept_app. cbn. lia.
Qed.

Lemma poll_news (fuel : nat) (w : world comm) :
  exists news,
    snd (snd (poll comm utcoffset (S (S fuel)) true w)) = snd w ++ news
    /\ 1000 <= slept news <= 3510.
Proof.
  cbn [poll]. rewrite bind_eq.
  destruct (send_at_complex_news comm GPS_INFO INFO_PREFIX 1000 w)
    as (news & Htr & _ & _ & Hs & _).
  destruct (INFO_QUERY w) as [[[status answer]|] w1]; cbn [fst snd] in *.
  - destruct (status =? 0); cbn [negb].
    + rewrite ?bind_eq. cbn [ret snd].
      destruct (send_at_complex_news comm GPS_STOP OK 1000
                  (snd (print comm (MsgError answer) w1)))
        as (news' & Htr' & _ & _ & Hs' & _).
      rewrite Htr'. cbn [print fst snd]. rewrite Htr.
      exists (news ++ [Print (MsgError answer)] ++ news').
      rewrite <- !app_assoc. split; [reflexivity|].
      rewrite !slept_app. cbn. lia.
    + destruct (contains (b ",,,,,,") answer).
      * rewrite ?bind_eq. cbn [print sleep poll ret fst snd]. rewrite Htr.
        exists (news ++ [Print MsgNotReadyMode; Sleep 1000; Sleep 1500]).
        rewrite <- !app_assoc. split; [reflexivity|].
        rewrite !slept_app. cbn. lia.
      * cbn [ret snd]. exists news. split; [exact Htr | lia].
  - cbn [ret snd]. exists news. split; [exact Htr | lia].
Qed.

(** Every run of the session sleeps between 4 s and 6.52 s in all: the
    settle times of the start command and of the query and the warm-up at
    least, and at most the two graces and the 2.5 s after an empty reply
    besides. *)
Theorem session_duration (fuel : nat) (w : world comm) :
  exists news,
    snd (snd (get_gps_position comm utcoffset (S (S fuel)) w)) = snd w ++ news
    /\ 4000 <= slept news <= 6520.
Proof.
  rewrite get_gps_position_eq.
  destruct (start_session_news w) as (n1 & H1 & Hs1).
  destruct (poll_news fuel (snd (start_session comm w))) as (n2 & H2 & Hs2).
  exists (n1 ++ n2). rewrite H2, H1, <- app_assoc. split; [reflexivity|].
  rewrite slept_app. lia.
Qed.

End SessionMore.

(** A modem whose answer to the query has the marker but neither the echo
    nor the closing OK. *)
Lemma session_parse_error_propagates_witness :
  exists w1,
    get_gps_position scripted 0 1 (([], [ok_reply; b "+CGPSINFO: 3110.1" ++ CRLF]), [])
    = (Some (Raise (ValueError WrongFormat)), w1)
    /\ exists why, ValueError WrongFormat = ValueError why.
Proof.
  eexists.
  eapply (session_parse_error_propagates scripted 0 0
            (([], [ok_reply; b "+CGPSINFO: 3110.1" ++ CRLF]), []) _ 1
            (b "+CGPSINFO: 3110.1" ++ CRLF)).
  - vm_compute. reflexivity.
  - discriminate.
  - vm_compute. reflexivity.
  - vm_compute. reflexivity.
Defined.

Lemma session_fix_provenance_witness :
  exists answer,
    fst (send_at_complex scripted GPS_INFO INFO_PREFIX 1000
           (snd (start_session scripted (([], [ok_reply; fix_reply]), []))))
    = Some (1, answer)
    /\ contains INFO_PREFIX answer = true
    /\ contains (b ",,,,,,") answer = false
    /\ parse_gpsinfo 0 answer
       = Return (mkGPSInfo example_lat example_lng (timestamp 0 example_time)
                           (Float.of_decimal 123 (-1)) (Float.of_decimal 5 (-1)))
    /\ well_framed (splitlines answer) = true.
Proof.
  eapply (session_fix_provenance scripted 0 1 (([], [ok_reply; fix_reply]), [])).
  vm_compute. reflexivity.
Defined.

(** ** Device discovery *)

Lemma last_line_None (lines : list bytes) : last_line lines = None -> lines = [].
Proof.
  induction lines as [|l ls IH]; [reflexivity|].
  cbn [last_line]. destruct ls as [|l' ls']; [discriminate|].
  intros H. specialize (IH H). discriminate IH.
Qed.

Lemma last_line_In (lines : list bytes) (l : bytes) :
  last_line lines = Some l -> In l lines.
Proof.
  induction lines as [|x ls IH]; [discriminate|].
  cbn [last_line]. destruct ls as [|l' ls'].
  - intros [= ->]. left. reflexivity.
  - intros H. right. exact (IH H).
Qed.

(** The test of the response never fails: a response that is not empty
    has a last line. *)
Lemma last_is_ok_cases (response : bytes) :
  last_is_ok response = Some false
  \/ (last_is_ok response = Some true
      /\ response <> [] /\ last_line (splitlines response) = Some OK).
Proof.
  unfold last_is_ok. destruct response as [|c r]; [left; reflexivity|].
  destruct (last_line (splitlines (c :: r))) as [l|] eqn:E.
  - destruct (Bytes.eqb l OK) eqn:El; [|left; reflexivity].
    right. apply bytes_eqb_eq in El. subst l.
    split; [reflexivity|]. split; [discriminate | reflexivity].
  - apply last_line_None, splitlines_nil in E. discriminate E.
Qed.

Section DiscoveryFacts.

Variable host : Host.

Local Notation "'PROBE'" := (fun size response =>
  [Write (GPS_STATUS ++ CRLF); Sleep 10; Read size response]).

(** The two ways a probe goes. *)
Lemma is_tty_gps_cases (tty : string) (w : hworld host) :
  (host_open host tty (fst w) = None
   /\ is_tty_gps host tty w
      = (Some false, (fst w, snd w ++ [Trying tty; OpenFailed tty])))
  \/ (exists h size response,
        is_tty_gps host tty w
        = (last_is_ok response,
           (h, snd w ++ [Trying tty; Probed tty (PROBE size response)]))).
Proof.
  unfold is_tty_gps.
  destruct (host_open host tty (fst w)) as [[p h]|].
  - right. unfold send_cmd. rewrite ?bind_eq. unfold read.
    cbn [write sleep inWaiting fst snd].
    destruct (dev_read (host_comm host) _ _) as [response p'].
    eexists _, _, response. rewrite <- app_assoc. reflexivity.
  - left. split; [reflexivity|]. rewrite <- app_assoc. reflexivity.
Qed.

Lemma is_tty_gps_returns (tty : string) (w : hworld host) :
  exists accepted ev h,
    is_tty_gps host tty w = (Some accepted, (h, snd w ++ [Trying tty; ev])).
Proof.
  destruct (is_tty_gps_cases tty w) as [[_ H]|(h & size & response & H)].
  - eexists _, _, _. exact H.
  - rewrite H. destruct (last_is_ok_cases response) as [E|[E _]]; rewrite E;
      eexists _, _, _; reflexivity.
Qed.

Lemma is_tty_gps_accepted (tty : string) (w w' : hworld host) :
  is_tty_gps host tty w = (Some true, w') ->
  exists size response,
    snd w' = snd w ++ [Trying tty; Probed tty (PROBE size response)]
    /\ response <> []
    /\ last_line (splitlines response) = Some OK.
Proof.
  destruct (is_tty_gps_cases tty w) as [[_ H]|(h & size & response & H)];
    rewrite H; [discriminate|].
  destruct (last_is_ok_cases response) as [E|(E & Hne & Hok)]; rewrite E;
    [discriminate|].
  intros [= <-]. exists size, response. repeat split; assumption.
Qed.

Lemma scan_ports_returns (default : option string) (devices : list string) :
  forall w, fst (scan_ports host default devices w) <> None.
Proof.
  induction devices as [|device rest IH]; intros w; cbn [scan_ports].
  - discriminate.
  - destruct (differs device default); [|apply IH].
    destruct (is_tty_gps_returns device w) as (accepted & ev & h & H).
    rewrite H. destruct accepted; [discriminate | apply IH].
Qed.

(** Discovery never fails with an IndexError: neither a probe nor the
    search leaves through the [[-1]] of line 128, whatever the ports
    answer. *)
Theorem discovery_never_raises (default : option string) (tty : string)
    (w : hworld host) :
  fst (is_tty_gps host tty w) <> None
  /\ fst (find_tty_gps host default w) <> None.
Proof.
  split.
  - destruct (is_tty_gps_returns tty w) as (accepted & ev & h & H).
    rewrite H. discriminate.
  - unfold find_tty_gps. destruct default as [s|]; [|apply scan_ports_returns].
    destruct (truthy (Some s)); [|apply scan_ports_returns].
    destruct (is_tty_gps_returns s w) as (accepted & ev & h & H).
    rewrite H. destruct accepted; [discriminate | apply scan_ports_returns].
Qed.

(** A probe that accepts a device has opened it, written AT+CGPS? to it
    once, waited 10 ms and read a response that is not empty, whose last
    line is OK. *)
Theorem is_tty_gps_accepts (tty : string) (w w' : hworld host) :
  is_tty_gps host tty w = (Some true, w') ->
  exists size response,
    snd w' = snd w ++ [Trying tty; Probed tty (PROBE size response)]
    /\ response <> []
    /\ last_line (splitlines response) = Some OK
    /\ contains OK response = true.
Proof.
  intros H. destruct (is_tty_gps_accepted tty w w' H) as (size & response & Htr & Hne & Hok).
  exists size, response. repeat split; try assumption.
  apply (contains_line OK response OK); [apply last_line_In, Hok | by_computation].
Qed.

Lemma scan_ports_sound (default : option string) (devices : list string) :
  forall (w w' : hworld host) (t : string),
    scan_ports host default devices w = (Some (Some t), w') ->
    exists evs size response,
      snd w' = snd w ++ evs ++ [Trying t; Probed t (PROBE size response)]
      /\ last_line (splitlines response) = Some OK
      /\ In t devices /\ differs t default = true.
Proof.
  induction devices as [|device rest IH]; intros w w' t; cbn [scan_ports].
  - discriminate.
  - destruct (differs device default) eqn:Hd.
    + destruct (is_tty_gps host device w) as [[[|]|] w1] eqn:Hp.
      * intros [= <- <-].
        destruct (is_tty_gps_accepted device w w1 Hp) as (size & response & Htr & _ & Hok).
        exists [], size, response. cbn [app].
        repeat split; [exact Htr | exact Hok | left; reflexivity | exact Hd].
      * intros H. destruct (IH w1 w' t H) as (evs & size & response & Htr & Hok & Hin & Ht).
        destruct (is_tty_gps_returns device w) as (accepted & ev & h & Hp').
        rewrite Hp in Hp'. injection Hp' as _ ->.
        exists ([Trying device; ev] ++ evs), size, response.
        cbn [snd] in Htr. rewrite Htr, <- !app_assoc.
        repeat split; [exact Hok | right; exact Hin | exact Ht].
      * discriminate.
    + intros H. destruct (IH w w' t H) as (evs & size & response & Htr & Hok & Hin & Ht).
      exists evs, size, response. repeat split; [exact Htr | exact Hok | right; exact Hin | exact Ht].
Qed.

(** The device that [find_tty_gps] returns is the last one it probed, that
    probe read a response whose last line is OK, and the device is the
    default or one of the ports that [comports()] listed. *)
Theorem find_tty_gps_sound (default : option string) (w w' : hworld host) (t : string) :
  find_tty_gps host default w = (Some (Some t), w') ->
  exists evs size response,
    snd w' = snd w ++ evs ++ [Trying t; Probed t (PROBE size response)]
    /\ last_line (splitlines response) = Some OK
    /\ (default = Some t \/ In t (ports_seen host default w)).
Proof.
  unfold find_tty_gps, ports_seen. destruct default as [s|].
  2:{ intros H. destruct (scan_ports_sound _ _ _ _ _ H)
        as (evs & size & response & Htr & Hok & Hin & _).
      exists evs, size, response. repeat split; [exact Htr | exact Hok |].
      right. apply in_rev. exact Hin. }
  destruct (truthy (Some s)).
  2:{ intros H. destruct (scan_ports_sound _ _ _ _ _ H)
        as (evs & size & response & Htr & Hok & Hin & _).
      exists evs, size, response. repeat split; [exact Htr | exact Hok |].
      right. apply in_rev. exact Hin. }
  destruct (is_tty_gps host s w) as [[[|]|] w1] eqn:Hp.
  - intros [= <- <-].
    destruct (is_tty_gps_accepted s w w1 Hp) as (size & response & Htr & _ & Hok).
    exists [], size, response. cbn [app].
    repeat split; [exact Htr | exact Hok | left; reflexivity].
  - intros H. destruct (scan_ports_sound _ _ _ _ _ H)
      as (evs & size & response & Htr & Hok & Hin & _).
    destruct (is_tty_gps_returns s w) as (accepted & ev & h & Hp').
    rewrite Hp in Hp'. injection Hp' as _ ->.
    exists ([Trying s; ev] ++ evs), size, response.
    cbn [fst snd] in *. rewrite Htr, <- !app_assoc.
    repeat split; [exact Hok |]. right. apply in_rev. exact Hin.
  - discriminate.
Qed.

Lemma tried_app (evs evs' : list probe_event) :
  tried (evs ++ evs') = tried evs ++ tried evs'.
Proof. apply flat_map_app. Qed.

Lemma is_tty_gps_tried (tty : string) (w : hworld host) :
  exists accepted evs h,
    is_tty_gps host tty w = (Some accepted, (h, snd w ++ evs))
    /\ tried evs = [tty].
Proof.
  destruct (is_tty_gps_cases tty w) as [[_ H]|(h & size & response & H)].
  - eexists _, _, _. split; [exact H | reflexivity].
  - rewrite H. destruct (last_is_ok_cases response) as [E|[E _]]; rewrite E;
      eexists _, _, _; (split; [reflexivity | reflexivity]).
Qed.

Lemma scan_ports_order (default : option string) (devices : list string) :
  forall w : hworld host,
  exists evs,
    snd (snd (scan_ports host default devices w)) = snd w ++ evs
    /\ match fst (scan_ports host default devices w) with
       | Some (Some t) =>
           exists pre post,
             filter (fun device => differs device default) devices = pre ++ t :: post
             /\ tried evs = pre ++ [t]
       | Some None =>
           tried evs = filter (fun device => differs device default) devices
       | None => True
       end.
Proof.
  induction devices as [|device rest IH]; intros w; cbn [scan_ports filter].
  - exists []. rewrite app_nil_r. split; reflexivity.
  - destruct (differs device default) eqn:Hd; [|apply IH].
    destruct (is_tty_gps_tried device w) as (accepted & evs & h & Hp & Ht).
    rewrite Hp. destruct accepted.
    + exists evs. split; [reflexivity|]. cbn [fst].
      exists [], (filter (fun device => differs device default) rest).
      split; [reflexivity | exact Ht].
    + destruct (IH (h, snd w ++ evs)) as (evs' & Htr & Hres).
      exists (evs ++ evs'). cbn [snd] in Htr. rewrite Htr, <- app_assoc.
      split; [reflexivity|].
      destruct (fst (scan_ports host default rest (h, snd w ++ evs))) as [[t|]|].
      * destruct Hres as (pre & post & Hf & Hpre).
        exists (device :: pre), post. rewrite Hf, tried_app, Ht, Hpre.
        split; reflexivity.
      * rewrite tried_app, Ht, Hres. reflexivity.
      * exact I.
Qed.


End DiscoveryFacts.

Lemma is_tty_gps_accepts_witness :
  exists size response,
    snd (snd (is_tty_gps three_ports "/dev/ttyUSB1" (tt, [])))
    = [] ++ [Trying "/dev/ttyUSB1";
             Probed "/dev/ttyUSB1"
               [Write (GPS_STATUS ++ CRLF); Sleep 10; Read size response]]
    /\ response <> []
    /\ last_line (splitlines response) = Some OK
    /\ contains OK response = true.
Proof.
  apply (is_tty_gps_accepts three_ports "/dev/ttyUSB1" (tt, [])).
  vm_compute. reflexivity.
Defined.

Lemma find_tty_gps_sound_witness :
  exists evs size response,
    snd (snd (find_tty_gps three_ports (Some DEFAULT_TTY_GPS) (tt, [])))
    = [] ++ evs ++ [Trying "/dev/ttyUSB1";
                    Probed "/dev/ttyUSB1"
                      [Write (GPS_STATUS ++ CRLF); Sleep 10; Read size response]]
    /\ last_line (splitlines response) = Some OK
    /\ (Some DEFAULT_TTY_GPS = Some "/dev/ttyUSB1"%string
        \/ In "/dev/ttyUSB1"%string
              (ports_seen three_ports (Some DEFAULT_TTY_GPS) (tt, []))).
Proof.
  apply (find_tty_gps_sound three_ports (Some DEFAULT_TTY_GPS) (tt, [])).
  vm_compute. reflexivity.
Defined.
